(** * Apollo planning: ReferenceLineProvider

    A shallow embedding of
    [modules/planning/reference_line/reference_line_provider.cc]:
    the lane-change eligibility tracker, the segment prioritizer, the smoothing
    validator, the reference-line pipeline and the publication loop.

    C++ [double] is IEEE-754 binary64 and is embedded as Rocq's primitive
    floats; [int] is embedded as [Z] with the 32-bit range written out;
    [std::unordered_map<std::string, SegmentHistory>] is a [gmap string _];
    [std::list] is [list].  The classes of the map, routing and smoothing
    libraries, whose sources are outside this file, are interfaces (type
    classes) here. *)

From Stdlib Require Import ZArith List Permutation Floats Uint63 Lia.
From stdpp Require Import base option list strings gmap.

Set Warnings "-inexact-float".
Local Open Scope Z_scope.

(** ** Numbers *)

Abbreviation double := PrimFloat.float.

Module Double.

(** [a < b] on doubles; false as soon as one side is NaN. *)
Definition lt (a b : double) : bool := PrimFloat.ltb a b.

(** [a > b]. *)
Definition gt (a b : double) : bool := PrimFloat.ltb b a.

(** [a >= b]. *)
Definition ge (a b : double) : bool := PrimFloat.leb b a.

(** [std::min(a, b)], which is [(b < a) ? b : a]. *)
Definition std_min (a b : double) : double := if lt b a then b else a.

(** [std::fabs]. *)
Definition fabs (a : double) : double := PrimFloat.abs a.

(** Conversion of an [int] to [double]; exact on the whole 32-bit range. *)
Definition of_int (z : Z) : double :=
  if (0 <=? z)%Z then PrimFloat.of_uint63 (Uint63.of_Z z)
  else PrimFloat.opp (PrimFloat.of_uint63 (Uint63.of_Z (- z))).

End Double.

Definition INT_MAX : Z := 2147483647.

(** ** Data *)

(** [common::math::Vec2d]. *)
Record Vec2d : Type := mkVec2d { x_ : double; y_ : double }.

(** [ReferenceLineProvider::SegmentHistory]. *)
Record SegmentHistory : Type := mkSegmentHistory {
  min_l : double;
  accumulate_s : double;
  last_point : Vec2d
}.

(** The fields of [common::VehicleState] the provider reads. *)
Record VehicleState : Type := mkVehicleState {
  vs_x : double;
  vs_y : double;
  linear_velocity : double
}.

(** The gflags read by the provider. *)
Record Flags : Type := mkFlags {
  FLAGS_reckless_change_lane : bool;
  FLAGS_min_length_for_lane_change : double;
  FLAGS_prioritize_change_lane : bool;
  FLAGS_enable_smooth_reference_line : bool;
  FLAGS_enable_reference_line_provider_thread : bool;
  FLAGS_look_forward_time_sec : double;
  FLAGS_look_forward_min_distance : double;
  FLAGS_look_forward_distance : double;
  FLAGS_look_backward_distance : double
}.

(** The map and routing collaborator: [hdmap::RouteSegments], [hdmap::PncMap],
    [routing::RoutingResponse] and [hdmap::Path].  [GetProjection] yields the
    pair [(s, l)] when it succeeds.  The methods of [PncMap] are not const, so
    they return the map they leave behind. *)
Class HDMap : Type := {
  RouteSegments : Type;
  IsOnSegment : RouteSegments -> bool;
  Id : RouteSegments -> string;
  GetProjection : RouteSegments -> Vec2d -> option (double * double);
  PncMap : Type;
  RoutingResponse : Type;
  PncMap_UpdateRoutingResponse : PncMap -> RoutingResponse -> bool * PncMap;
  IsSameRouting : PncMap -> bool;
  GetRouteSegments :
    PncMap -> VehicleState -> double -> double ->
    option (list RouteSegments) * PncMap;
  Path : Type;
  CreatePathFromLaneSegments : RouteSegments -> Path
}.

(** The geometry collaborator: [ReferenceLine] with its constructor from a
    path, [Length] and [GetReferencePoint]; the distance helpers
    [common::util::DistanceXY] and [Vec2d::DistanceTo]; and the smoother
    selected by [Init], [smoother_->Smooth]. *)
Class Geometry `{HDMap} : Type := {
  ReferenceLine : Type;
  ReferenceLine_of_path : Path -> ReferenceLine;
  Length : ReferenceLine -> double;
  GetReferencePoint : ReferenceLine -> double -> Vec2d;
  DistanceXY : Vec2d -> Vec2d -> double;
  DistanceTo : Vec2d -> Vec2d -> double;
  Smooth : ReferenceLine -> option ReferenceLine
}.

(** The members of [ReferenceLineProvider]. *)
Record Provider `{Geometry} : Type := mkProvider {
  pnc_map_ : PncMap;
  segment_history_ : gmap string SegmentHistory;
  has_routing_ : bool;
  vehicle_state_ : VehicleState;
  reference_lines_ : list ReferenceLine;
  route_segments_ : list RouteSegments;
  is_stop_ : bool;
  is_initialized_ : bool
}.

Definition set_pnc_map `{Geometry} (m : PncMap) (st : Provider) : Provider :=
  mkProvider _ _ m (segment_history_ st) (has_routing_ st) (vehicle_state_ st)
    (reference_lines_ st) (route_segments_ st) (is_stop_ st)
    (is_initialized_ st).

Definition set_segment_history `{Geometry}
  (h : gmap string SegmentHistory) (st : Provider) : Provider :=
  mkProvider _ _ (pnc_map_ st) h (has_routing_ st) (vehicle_state_ st)
    (reference_lines_ st) (route_segments_ st) (is_stop_ st)
    (is_initialized_ st).

Definition set_has_routing `{Geometry} (b : bool) (st : Provider) : Provider :=
  mkProvider _ _ (pnc_map_ st) (segment_history_ st) b (vehicle_state_ st)
    (reference_lines_ st) (route_segments_ st) (is_stop_ st)
    (is_initialized_ st).

Definition set_vehicle_state `{Geometry}
  (v : VehicleState) (st : Provider) : Provider :=
  mkProvider _ _ (pnc_map_ st) (segment_history_ st) (has_routing_ st) v
    (reference_lines_ st) (route_segments_ st) (is_stop_ st)
    (is_initialized_ st).

Definition set_snapshot `{Geometry}
  (rls : list ReferenceLine) (segs : list RouteSegments) (st : Provider)
  : Provider :=
  mkProvider _ _ (pnc_map_ st) (segment_history_ st) (has_routing_ st)
    (vehicle_state_ st) rls segs (is_stop_ st) (is_initialized_ st).

Definition set_is_stop `{Geometry} (b : bool) (st : Provider) : Provider :=
  mkProvider _ _ (pnc_map_ st) (segment_history_ st) (has_routing_ st)
    (vehicle_state_ st) (reference_lines_ st) (route_segments_ st) b
    (is_initialized_ st).

(** ** Lane-change eligibility: [IsAllowChangeLane] *)

Definition kChangeLaneMinL : double := 0.25%float.
Definition kChangeLaneMinLengthFactor : double := 0.6%float.

(** The [while] loop that advances [forward_segment] to the first segment
    with [IsOnSegment()]; [None] is [route_segments.end()]. *)
Fixpoint forward_segment `{HDMap} (route_segments : list RouteSegments)
  : option RouteSegments :=
  match route_segments with
  | [] => None
  | seg :: rest =>
      if IsOnSegment seg then Some seg else forward_segment rest
  end.

(** The entry written on the first observation of a segment id. *)
Definition first_observation (point : Vec2d) (l : double) : SegmentHistory :=
  {| min_l := Double.fabs l; last_point := point; accumulate_s := 0%float |}.

(** The entry after a later observation: [min_l], then [dist] from the old
    [last_point], then [last_point] and [accumulate_s]. *)
Definition next_observation (e : SegmentHistory) (point : Vec2d) (l : double)
  `{Geometry} : SegmentHistory :=
  let dist := DistanceXY (last_point e) point in
  {| min_l := Double.std_min (min_l e) (Double.fabs l);
     last_point := point;
     accumulate_s := (accumulate_s e + dist)%float |}.

(** The final test of [IsAllowChangeLane] on the updated entry. *)
Definition change_lane_test (flags : Flags) (e : SegmentHistory) : bool :=
  Double.lt (min_l e) kChangeLaneMinL &&
  Double.ge (accumulate_s e)
    (kChangeLaneMinLengthFactor * FLAGS_min_length_for_lane_change flags)%float.

Definition IsAllowChangeLane `{Geometry} (flags : Flags)
  (point : Vec2d) (route_segments : list RouteSegments) (st : Provider)
  : bool * Provider :=
  if FLAGS_reckless_change_lane flags then (true, st)
  else if (length route_segments <=? 1)%nat then (false, st)
  else
    match forward_segment route_segments with
    | None => (true, st)
    | Some fwd =>
        match GetProjection fwd point with
        | None => (false, st)
        | Some (s, l) =>
            match segment_history_ st !! Id fwd with
            | None =>
                (false,
                 set_segment_history
                   (<[Id fwd := first_observation point l]>
                      (segment_history_ st)) st)
            | Some e =>
                let e' := next_observation e point l in
                (change_lane_test flags e',
                 set_segment_history
                   (<[Id fwd := e']> (segment_history_ st)) st)
            end
        end
    end.

(** ** [UpdateRoutingResponse], [UpdateVehicleState] *)

Definition UpdateRoutingResponse `{Geometry}
  (routing : RoutingResponse) (st : Provider) : bool * Provider :=
  let '(ok, m) := PncMap_UpdateRoutingResponse (pnc_map_ st) routing in
  let st := set_pnc_map m st in
  if negb ok then (false, st)
  else
    let st :=
      if negb (IsSameRouting (pnc_map_ st))
      then set_segment_history ∅ st else st in
    (true, set_has_routing true st).

Definition UpdateVehicleState `{Geometry}
  (vehicle_state : VehicleState) (st : Provider) : Provider :=
  set_vehicle_state vehicle_state st.

(** ** Segment prioritizer: [PrioritzeChangeLane] *)

(** The loop with [iter] at the head of [rest] and [visited] the elements
    before it; [splice] moves [*iter] to the front and the loop breaks. *)
Fixpoint PrioritzeChangeLane_loop `{HDMap}
  (visited rest : list RouteSegments) : list RouteSegments :=
  match rest with
  | [] => visited
  | seg :: rest' =>
      if negb (IsOnSegment seg) then seg :: visited ++ rest'
      else PrioritzeChangeLane_loop (visited ++ [seg]) rest'
  end.

Definition PrioritzeChangeLane `{HDMap} (route_segments : list RouteSegments)
  : list RouteSegments :=
  PrioritzeChangeLane_loop [] route_segments.

(** ** Outcomes and bounded loops *)

(** A computation either returns normally or leaves defined behaviour (here:
    a conversion to [int] of a value outside its range). *)
Inductive outcome (A : Type) : Type :=
| Normal (a : A)
| Undefined.
Arguments Normal {A} a.
Arguments Undefined {A}.

#[global] Instance outcome_ret : MRet outcome := fun A a => Normal a.
#[global] Instance outcome_bind : MBind outcome := fun A B f m =>
  match m with
  | Normal a => f a
  | Undefined => Undefined
  end.

(** A loop whose body either continues with a new state or returns.  [iterate]
    runs it for at most [fuel] rounds, [fuel] in binary so that a bound beyond
    the number of values of a 32-bit counter costs nothing; [iterate_nat] is
    the same loop with a unary bound, for the proofs. *)
Fixpoint iterate {St Res : Type} (body : St -> St + Res)
  (fuel : positive) (s : St) : St + Res :=
  match fuel with
  | xH => body s
  | xO p =>
      match iterate body p s with
      | inl s1 => iterate body p s1
      | inr r => inr r
      end
  | xI p =>
      match body s with
      | inl s1 =>
          match iterate body p s1 with
          | inl s2 => iterate body p s2
          | inr r => inr r
          end
      | inr r => inr r
      end
  end.

Fixpoint iterate_nat {St Res : Type} (body : St -> St + Res)
  (fuel : nat) (s : St) : St + Res :=
  match fuel with
  | O => inl s
  | S n =>
      match body s with
      | inl s1 => iterate_nat body n s1
      | inr r => inr r
      end
  end.

(** ** Smoothing validator: [IsReferenceLineSmoothValid] *)

Definition kReferenceLineDiffCheckResolution : double := 5%float.

(** One round of [for (int s = 0.0; s < raw.Length(); s += 5.0)] at counter
    [s].  The increment is computed in [double] and converted back to [int];
    on the 32-bit range the sum is exact, and the conversion is undefined when
    the sum is above [INT_MAX]. *)
Definition smooth_valid_body `{Geometry} (raw smoothed : ReferenceLine)
  (s : Z) : Z + outcome bool :=
  if Double.lt (Double.of_int s) (Length raw) then
    let xy_old := GetReferencePoint raw (Double.of_int s) in
    let xy_new := GetReferencePoint smoothed (Double.of_int s) in
    let diff := DistanceTo xy_old xy_new in
    if Double.gt diff kReferenceLineDiffCheckResolution then
      inr (Normal false)
    else if s + 5 <=? INT_MAX then inl (s + 5)
    else inr Undefined
  else inr (Normal true).

(** More rounds than an [int] counter stepping by 5 from 0 can take. *)
Definition smooth_valid_rounds : positive := 4294967296%positive.

Definition IsReferenceLineSmoothValid `{Geometry}
  (raw smoothed : ReferenceLine) : outcome bool :=
  match iterate (smooth_valid_body raw smoothed) smooth_valid_rounds 0 with
  | inr r => r
  | inl _ => Undefined
  end.

(** ** [SmoothReferenceLine] *)

Definition SmoothReferenceLine `{Geometry} (flags : Flags)
  (lanes : RouteSegments) : outcome (option ReferenceLine) :=
  let path := CreatePathFromLaneSegments lanes in
  if negb (FLAGS_enable_smooth_reference_line flags) then
    Normal (Some (ReferenceLine_of_path path))
  else
    let raw_reference_line := ReferenceLine_of_path path in
    match Smooth raw_reference_line with
    | None => Normal None
    | Some reference_line =>
        valid ← IsReferenceLineSmoothValid raw_reference_line reference_line;
        if negb valid then Normal None else Normal (Some reference_line)
    end.

(** ** The pipeline: [CreateReferenceLineFromRouting] *)

Definition look_forward_distance (flags : Flags) (vs : VehicleState)
  : double :=
  if Double.gt
       (linear_velocity vs * FLAGS_look_forward_time_sec flags)%float
       (FLAGS_look_forward_min_distance flags)
  then FLAGS_look_forward_distance flags
  else FLAGS_look_forward_min_distance flags.

(** The [for (const auto &lanes : route_segments)] loop, appending to the two
    output lists. *)
Fixpoint smooth_each `{Geometry} (flags : Flags) (is_allow_change_lane : bool)
  (route_segments : list RouteSegments)
  (reference_lines : list ReferenceLine) (segments : list RouteSegments)
  : outcome (list ReferenceLine * list RouteSegments) :=
  match route_segments with
  | [] => Normal (reference_lines, segments)
  | lanes :: rest =>
      if negb is_allow_change_lane && negb (IsOnSegment lanes) then
        smooth_each flags is_allow_change_lane rest reference_lines segments
      else
        r ← SmoothReferenceLine flags lanes;
        match r with
        | None =>
            smooth_each flags is_allow_change_lane rest
              reference_lines segments
        | Some reference_line =>
            smooth_each flags is_allow_change_lane rest
              (reference_lines ++ [reference_line]) (segments ++ [lanes])
        end
  end.

(** [reference_lines] and [segments] are the lists behind the two output
    pointers as the caller passes them; the result holds the returned [bool],
    the two lists and the provider afterwards. *)
Definition CreateReferenceLineFromRouting `{Geometry} (flags : Flags)
  (reference_lines : list ReferenceLine) (segments : list RouteSegments)
  (st : Provider)
  : outcome (bool * (list ReferenceLine * list RouteSegments) * Provider) :=
  let look_forward := look_forward_distance flags (vehicle_state_ st) in
  let point :=
    {| x_ := vs_x (vehicle_state_ st); y_ := vs_y (vehicle_state_ st) |} in
  let '(found, m) :=
    GetRouteSegments (pnc_map_ st) (vehicle_state_ st)
      (FLAGS_look_backward_distance flags) look_forward in
  let st := set_pnc_map m st in
  match found with
  | None => Normal (false, (reference_lines, segments), st)
  | Some route_segments =>
      let route_segments :=
        if FLAGS_prioritize_change_lane flags
        then PrioritzeChangeLane route_segments else route_segments in
      let '(is_allow_change_lane, st) :=
        IsAllowChangeLane flags point route_segments st in
      out ← smooth_each flags is_allow_change_lane route_segments
              reference_lines segments;
      match out.1 with
      | [] => Normal (false, out, st)
      | _ :: _ => Normal (true, out, st)
      end
  end.

(** ** Publication: [GenerateThread], [GetReferenceLines] *)

(** One round of the [while (!is_stop_)] loop of [GenerateThread], after the
    sleep.  The [bool] tells whether the round reached the assignment of the
    snapshot and [notify_one]. *)
Definition GenerateThread_round `{Geometry} (flags : Flags) (st : Provider)
  : outcome (bool * Provider) :=
  if negb (has_routing_ st) then Normal (false, st)
  else
    '(ok, (reference_lines, segments), st) ←
      CreateReferenceLineFromRouting flags [] [] st;
    if negb ok then Normal (false, st)
    else Normal (true, set_snapshot reference_lines segments st).

(** What a consumer gets: in threaded mode the call waits while the snapshot
    is empty. *)
Inductive consumed `{Geometry} : Type :=
| Waiting
| Returned (ok : bool)
    (reference_lines : list ReferenceLine) (segments : list RouteSegments).

Definition GetReferenceLines `{Geometry} (flags : Flags)
  (reference_lines : list ReferenceLine) (segments : list RouteSegments)
  (st : Provider) : outcome (consumed * Provider) :=
  if FLAGS_enable_reference_line_provider_thread flags then
    match reference_lines_ st with
    | [] => Normal (Waiting, st)
    | _ :: _ =>
        Normal (Returned true (reference_lines_ st) (route_segments_ st), st)
    end
  else
    '(ok, (rls, segs), st) ←
      CreateReferenceLineFromRouting flags reference_lines segments st;
    Normal (Returned ok rls segs, st).

(** The provider as constructed and initialised by [Init]. *)
Definition Init `{Geometry} (m : PncMap) (v : VehicleState) : Provider :=
  {| pnc_map_ := m; segment_history_ := ∅; has_routing_ := false;
     vehicle_state_ := v; reference_lines_ := []; route_segments_ := [];
     is_stop_ := false; is_initialized_ := true |}.

(** The operations that the caller threads and the worker interleave, each
    taken as one atomic step.  [LRound published] is a round of the worker.
    The worker tests [is_stop_] before it sleeps, so a round that has passed
    the test still runs after [Stop] has set the flag: a round can be taken
    in any state. *)
Inductive label `{Geometry} : Type :=
| LRouting (routing : RoutingResponse) (ok : bool)
| LVehicleState (vehicle_state : VehicleState)
| LRound (published : bool)
| LGet (reference_lines : list ReferenceLine) (segments : list RouteSegments)
| LStop.

Inductive step `{Geometry} (flags : Flags)
  : Provider -> label -> Provider -> Prop :=
| step_routing st routing ok st' :
    UpdateRoutingResponse routing st = (ok, st') ->
    step flags st (LRouting routing ok) st'
| step_vehicle_state st v :
    step flags st (LVehicleState v) (UpdateVehicleState v st)
| step_round st published st' :
    GenerateThread_round flags st = Normal (published, st') ->
    step flags st (LRound published) st'
| step_get st rls segs r st' :
    GetReferenceLines flags rls segs st = Normal (r, st') ->
    step flags st (LGet rls segs) st'
| step_stop st :
    step flags st LStop (set_is_stop true st).

(** [run flags st trace st']: the provider goes from [st] to [st'] through
    the steps of [trace], oldest first. *)
Inductive run `{Geometry} (flags : Flags)
  : Provider -> list label -> Provider -> Prop :=
| run_nil st : run flags st [] st
| run_snoc st trace st1 l st2 :
    run flags st trace st1 -> step flags st1 l st2 ->
    run flags st (trace ++ [l]) st2.

Definition is_publication `{Geometry} (l : label) : bool :=
  match l with
  | LRound published => published
  | _ => false
  end.

Definition is_accepted_routing `{Geometry} (l : label) : bool :=
  match l with
  | LRouting _ ok => ok
  | _ => false
  end.

(** ** The samples of the validator, as its specification words them *)

(** [s] is one of the arclengths 0, 5, 10, ... that are reached while every
    multiple of 5 up to it is strictly below the length of the raw line. *)
Definition sample_point `{Geometry} (raw : ReferenceLine) (s : Z) : Prop :=
  exists k : nat,
    s = 5 * Z.of_nat k /\
    forall j : nat, (j <= k)%nat ->
      Double.lt (Double.of_int (5 * Z.of_nat j)) (Length raw) = true.

(** The planar distance between the two lines at arclength [s] is above
    5.0. *)
Definition too_far `{Geometry} (raw smoothed : ReferenceLine) (s : Z) : bool :=
  Double.gt
    (DistanceTo (GetReferencePoint raw (Double.of_int s))
                (GetReferencePoint smoothed (Double.of_int s)))
    5%float.

(** The raw line is short enough for the [int] counter: the loop leaves at
    [s = 2147483645] at the latest, before [s += 5.0] passes [INT_MAX]. *)
Definition counter_in_range `{Geometry} (raw : ReferenceLine) : Prop :=
  Double.lt (Double.of_int 2147483645) (Length raw) = false.

(** ** The candidates of a run, as its specification words them *)

(** The raw line of a candidate. *)
Definition raw_line `{Geometry} (lanes : RouteSegments) : ReferenceLine :=
  ReferenceLine_of_path (CreatePathFromLaneSegments lanes).

(** A candidate yields a usable line in a run with eligibility [allow]: it is
    not skipped for being another segment than the current one while lane
    change is not allowed, and [SmoothReferenceLine] succeeds on it. *)
Definition usable `{Geometry} (flags : Flags) (allow : bool)
  (lanes : RouteSegments) : bool :=
  (allow || IsOnSegment lanes) &&
  match SmoothReferenceLine flags lanes with
  | Normal (Some _) => true
  | _ => false
  end.

(** The position snapshot of a run. *)
Definition position `{Geometry} (st : Provider) : Vec2d :=
  {| x_ := vs_x (vehicle_state_ st); y_ := vs_y (vehicle_state_ st) |}.

(** The request of a run to the map for its candidates. *)
Definition candidates `{Geometry} (flags : Flags) (st : Provider)
  : option (list RouteSegments) * PncMap :=
  GetRouteSegments (pnc_map_ st) (vehicle_state_ st)
    (FLAGS_look_backward_distance flags)
    (look_forward_distance flags (vehicle_state_ st)).

(** ** A straight road, for the examples

    Lanes run along the x axis at a lateral position [lane_y]; a routing
    response carries the lanes of the route and a route number.  The smoother
    of the examples fails on lanes shorter than one unit and otherwise doubles
    the lateral position of the line. *)
Module Road.

Record lane : Type := mkLane {
  lane_id : string;
  lane_on : bool;
  lane_y : double;
  lane_length : double
}.

Record routing : Type := mkRouting {
  routing_lanes : option (list lane);
  routing_number : nat
}.

Record pnc_map : Type := mkPncMap {
  map_lanes : list lane;
  map_number : nat;
  map_same : bool
}.

Record line : Type := mkLine { line_y : double; line_length : double }.

Definition project (seg : lane) (p : Vec2d) : option (double * double) :=
  if Double.lt (x_ p) 0%float then None
  else Some (x_ p, (y_ p - lane_y seg)%float).

Definition update (m : pnc_map) (r : routing) : bool * pnc_map :=
  match routing_lanes r with
  | None => (false, m)
  | Some ls =>
      (true,
       {| map_lanes := ls; map_number := routing_number r;
          map_same := Nat.eqb (routing_number r) (map_number m) |})
  end.

Definition segments_of (m : pnc_map) (v : VehicleState) (back fwd : double)
  : option (list lane) * pnc_map :=
  match map_lanes m with
  | [] => (None, m)
  | ls => (Some ls, m)
  end.

(** The Euclidean distance in the plane. *)
Definition euclid (a b : Vec2d) : double :=
  let dx := (x_ a - x_ b)%float in
  let dy := (y_ a - y_ b)%float in
  PrimFloat.sqrt (dx * dx + dy * dy)%float.

Definition smooth (ln : line) : option line :=
  if Double.lt (line_length ln) 1%float then None
  else Some {| line_y := (line_y ln * 2)%float;
               line_length := line_length ln |}.

Definition hdmap : HDMap :=
  {| RouteSegments := lane;
     IsOnSegment := lane_on;
     Id := lane_id;
     GetProjection := project;
     PncMap := pnc_map;
     RoutingResponse := routing;
     PncMap_UpdateRoutingResponse := update;
     IsSameRouting := map_same;
     GetRouteSegments := segments_of;
     Path := lane;
     CreatePathFromLaneSegments := fun seg => seg |}.

Definition geometry : @Geometry hdmap :=
  {| ReferenceLine := line;
     ReferenceLine_of_path := fun (seg : @Path hdmap) =>
       {| line_y := lane_y seg; line_length := lane_length seg |};
     Length := line_length;
     GetReferencePoint := fun ln s => {| x_ := s; y_ := line_y ln |};
     DistanceXY := euclid;
     DistanceTo := euclid;
     Smooth := smooth |}.

Definition flags : Flags :=
  {| FLAGS_reckless_change_lane := false;
     FLAGS_min_length_for_lane_change := 10%float;
     FLAGS_prioritize_change_lane := true;
     FLAGS_enable_smooth_reference_line := true;
     FLAGS_enable_reference_line_provider_thread := true;
     FLAGS_look_forward_time_sec := 8%float;
     FLAGS_look_forward_min_distance := 100%float;
     FLAGS_look_forward_distance := 250%float;
     FLAGS_look_backward_distance := 30%float |}.

Definition reckless : Flags :=
  {| FLAGS_reckless_change_lane := true;
     FLAGS_min_length_for_lane_change := 10%float;
     FLAGS_prioritize_change_lane := true;
     FLAGS_enable_smooth_reference_line := true;
     FLAGS_enable_reference_line_provider_thread := true;
     FLAGS_look_forward_time_sec := 8%float;
     FLAGS_look_forward_min_distance := 100%float;
     FLAGS_look_forward_distance := 250%float;
     FLAGS_look_backward_distance := 30%float |}.

(** The current lane, a neighbour the smoother keeps close, a neighbour it
    moves too far, and a stub too short to smooth. *)
Definition current : lane := mkLane "current" true 0%float 12%float.
Definition left : lane := mkLane "left" false 3.5%float 12%float.
Definition far : lane := mkLane "far" false 6%float 12%float.
Definition stub : lane := mkLane "stub" true 0%float 0.5%float.

Definition at_ (x y : double) : Vec2d := {| x_ := x; y_ := y |}.

Definition vehicle (x y : double) : VehicleState :=
  {| vs_x := x; vs_y := y; linear_velocity := 5%float |}.

Definition provider (ls : list lane) (h : gmap string SegmentHistory)
  (routed : bool) (x y : double) : @Provider hdmap geometry :=
  mkProvider hdmap geometry (mkPncMap ls 1 true) h routed (vehicle x y)
    [] [] false true.

End Road.

(** * Properties *)

(** ** Lane-change eligibility *)

Section Eligibility.
Context {M : HDMap} {G : Geometry}.
Implicit Types (flags : Flags) (point : Vec2d) (st : Provider).
Implicit Types (segs : list RouteSegments) (e : SegmentHistory).

Lemma forward_segment_on segs fwd :
  forward_segment segs = Some fwd -> IsOnSegment fwd = true /\ In fwd segs.
Proof.
  induction segs as [|seg rest IH]; simpl; [discriminate|].
  destruct (IsOnSegment seg) eqn:Hon; intros Hf.
  - injection Hf as <-. auto.
  - destruct (IH Hf). auto.
Qed.

Lemma forward_segment_none segs :
  forward_segment segs = None <->
  Forall (fun seg => IsOnSegment seg = false) segs.
Proof.
  induction segs as [|seg rest IH]; simpl.
  - split; [constructor | reflexivity].
  - destruct (IsOnSegment seg) eqn:Hon.
    + split; [discriminate|]. intros Hall. inversion Hall; congruence.
    + rewrite IH. split; [by constructor | by inversion 1].
Qed.

Lemma size_above_one segs :
  (2 <= length segs)%nat -> (length segs <=? 1)%nat = false.
Proof. intros Hlen. apply Nat.leb_gt. lia. Qed.

(** C7.  With reckless mode configured [IsAllowChangeLane] returns true for
    any list; with reckless mode off it returns false for every list of at
    most one segment.  Neither case touches the provider. *)
Theorem IsAllowChangeLane_few_segments flags point segs st :
  (FLAGS_reckless_change_lane flags = true ->
   IsAllowChangeLane flags point segs st = (true, st)) /\
  (FLAGS_reckless_change_lane flags = false ->
   (length segs <= 1)%nat ->
   IsAllowChangeLane flags point segs st = (false, st)).
Proof.
  unfold IsAllowChangeLane. split.
  - intros ->. reflexivity.
  - intros -> Hlen. apply Nat.leb_le in Hlen. by rewrite Hlen.
Qed.

(** C8.  A call that reaches the history lookup with an id that has no entry
    creates the entry [|l|], [point], [0] and returns false. *)
Theorem IsAllowChangeLane_first_observation flags point segs st fwd s l :
  FLAGS_reckless_change_lane flags = false ->
  (2 <= length segs)%nat ->
  forward_segment segs = Some fwd ->
  GetProjection fwd point = Some (s, l) ->
  segment_history_ st !! Id fwd = None ->
  exists e,
    min_l e = Double.fabs l /\
    last_point e = point /\
    accumulate_s e = 0%float /\
    segment_history_ (IsAllowChangeLane flags point segs st).2 !! Id fwd
      = Some e /\
    IsAllowChangeLane flags point segs st =
      (false,
       set_segment_history (<[Id fwd := e]> (segment_history_ st)) st).
Proof.
  intros Hreck Hlen Hfwd Hproj Hnone.
  exists (first_observation point l).
  unfold IsAllowChangeLane.
  rewrite Hreck, (size_above_one _ Hlen), Hfwd, Hproj, Hnone. simpl.
  rewrite lookup_insert_eq. auto.
Qed.

(** C1.  A call that reaches the history lookup and finds an entry [e] for
    the forward segment replaces it by [e'] with
    [min_l e' = std::min(min_l e, |l|)],
    [accumulate_s e' = accumulate_s e + DistanceXY(last_point e, point)] and
    [last_point e' = point], and returns
    [min_l e' < 0.25 && accumulate_s e' >= 0.6 * min_length]. *)
Theorem IsAllowChangeLane_next_observation flags point segs st fwd s l e :
  FLAGS_reckless_change_lane flags = false ->
  (2 <= length segs)%nat ->
  forward_segment segs = Some fwd ->
  GetProjection fwd point = Some (s, l) ->
  segment_history_ st !! Id fwd = Some e ->
  exists e',
    min_l e' = Double.std_min (min_l e) (Double.fabs l) /\
    accumulate_s e' =
      (accumulate_s e + DistanceXY (last_point e) point)%float /\
    last_point e' = point /\
    segment_history_ (IsAllowChangeLane flags point segs st).2 !! Id fwd
      = Some e' /\
    IsAllowChangeLane flags point segs st =
      (Double.lt (min_l e') 0.25%float &&
       Double.ge (accumulate_s e')
         (0.6 * FLAGS_min_length_for_lane_change flags)%float,
       set_segment_history (<[Id fwd := e']> (segment_history_ st)) st).
Proof.
  intros Hreck Hlen Hfwd Hproj Hsome.
  exists (next_observation e point l).
  unfold IsAllowChangeLane.
  rewrite Hreck, (size_above_one _ Hlen), Hfwd, Hproj, Hsome. simpl.
  rewrite lookup_insert_eq. auto.
Qed.

(** C10.  A call whose projection onto the forward segment fails returns
    false and leaves the provider, and so the whole history table, as it
    was. *)
Theorem IsAllowChangeLane_projection_failure flags point segs st fwd :
  FLAGS_reckless_change_lane flags = false ->
  (2 <= length segs)%nat ->
  forward_segment segs = Some fwd ->
  GetProjection fwd point = None ->
  IsAllowChangeLane flags point segs st = (false, st) /\
  segment_history_ (IsAllowChangeLane flags point segs st).2
    = segment_history_ st.
Proof.
  intros Hreck Hlen Hfwd Hproj.
  unfold IsAllowChangeLane.
  rewrite Hreck, (size_above_one _ Hlen), Hfwd, Hproj. auto.
Qed.

End Eligibility.

(** The eligibility tracker on the road of the examples. *)

Definition seen_current : gmap string SegmentHistory :=
  {[ "current" :=
       {| min_l := 0.1%float; accumulate_s := 3%float;
          last_point := Road.at_ 3 0.1 |} ]}.

Lemma IsAllowChangeLane_few_segments_witness :
  IsAllowChangeLane (H0:=Road.geometry) Road.reckless (Road.at_ 0 0) []
    (Road.provider [] ∅ false 0 0)
  = (true, Road.provider [] ∅ false 0 0) /\
  IsAllowChangeLane (H0:=Road.geometry) Road.flags (Road.at_ 0 0) [Road.current]
    (Road.provider [Road.current] ∅ false 0 0)
  = (false, Road.provider [Road.current] ∅ false 0 0).
Proof.
  split.
  - apply (proj1 (IsAllowChangeLane_few_segments (G:=Road.geometry)
                    Road.reckless _ _ _)).
    reflexivity.
  - apply (proj2 (IsAllowChangeLane_few_segments (G:=Road.geometry)
                    Road.flags _ _ _)).
    + reflexivity.
    + simpl. lia.
Defined.

Lemma IsAllowChangeLane_first_observation_witness :
  exists e,
    min_l e = 0.1%float /\ last_point e = Road.at_ 0 0.1 /\
    accumulate_s e = 0%float /\
    IsAllowChangeLane (H0:=Road.geometry) Road.flags (Road.at_ 0 0.1)
      [Road.current; Road.left]
      (Road.provider [Road.current; Road.left] ∅ true 0 0.1)
    = (false,
       set_segment_history {[ "current" := e ]}
         (Road.provider [Road.current; Road.left] ∅ true 0 0.1)).
Proof.
  destruct (IsAllowChangeLane_first_observation (G:=Road.geometry)
              Road.flags (Road.at_ 0 0.1) [Road.current; Road.left]
              (Road.provider [Road.current; Road.left] ∅ true 0 0.1)
              Road.current 0%float 0.1%float)
    as (e & Hmin & Hlast & Hacc & _ & Hcall).
  - reflexivity.
  - simpl. lia.
  - reflexivity.
  - reflexivity.
  - reflexivity.
  - exists e. repeat split; [exact Hmin | exact Hlast | exact Hacc |].
    exact Hcall.
Defined.

(** The boundary of the distance test is inclusive: with [min_length = 10]
    the entry reaches [accumulate_s = 6 = 0.6 * 10] and the call returns
    true. *)
Lemma IsAllowChangeLane_next_observation_witness :
  (IsAllowChangeLane (H0:=Road.geometry) Road.flags (Road.at_ 6 0.1)
     [Road.current; Road.left]
     (Road.provider [Road.current; Road.left] seen_current true 6 0.1)).1
  = true.
Proof.
  destruct (IsAllowChangeLane_next_observation (G:=Road.geometry)
              Road.flags (Road.at_ 6 0.1) [Road.current; Road.left]
              (Road.provider [Road.current; Road.left] seen_current true 6 0.1)
              Road.current 6%float 0.1%float
              {| min_l := 0.1%float; accumulate_s := 3%float;
                 last_point := Road.at_ 3 0.1 |})
    as (e' & Hmin & Hacc & _ & _ & Hcall).
  - reflexivity.
  - simpl. lia.
  - reflexivity.
  - reflexivity.
  - vm_compute. reflexivity.
  - rewrite Hcall. simpl. rewrite Hmin, Hacc. vm_compute. reflexivity.
Defined.

Lemma IsAllowChangeLane_projection_failure_witness :
  IsAllowChangeLane (H0:=Road.geometry) Road.flags (Road.at_ (-1) 0)
    [Road.current; Road.left]
    (Road.provider [Road.current; Road.left] seen_current true (-1) 0)
  = (false, Road.provider [Road.current; Road.left] seen_current true (-1) 0)
  /\
  segment_history_
    (IsAllowChangeLane (H0:=Road.geometry) Road.flags (Road.at_ (-1) 0)
       [Road.current; Road.left]
       (Road.provider [Road.current; Road.left] seen_current true (-1) 0)).2
  = seen_current.
Proof.
  apply (IsAllowChangeLane_projection_failure (G:=Road.geometry)
           Road.flags (Road.at_ (-1) 0) [Road.current; Road.left]
           (Road.provider [Road.current; Road.left] seen_current true (-1) 0)
           Road.current).
  - reflexivity.
  - simpl. lia.
  - reflexivity.
  - vm_compute. reflexivity.
Defined.

(** ** Segment prioritizer *)

Section Prioritizer.
Context {M : HDMap}.
Implicit Types (segs visited rest pre post : list RouteSegments).

Lemma PrioritzeChangeLane_loop_spec rest visited :
  (Forall (fun seg => IsOnSegment seg = true) rest /\
   PrioritzeChangeLane_loop visited rest = visited ++ rest) \/
  (exists pre x post,
     rest = pre ++ x :: post /\
     Forall (fun seg => IsOnSegment seg = true) pre /\
     IsOnSegment x = false /\
     PrioritzeChangeLane_loop visited rest = x :: visited ++ pre ++ post).
Proof.
  revert visited. induction rest as [|seg rest IH]; intros visited; simpl.
  - left. by rewrite app_nil_r.
  - destruct (IsOnSegment seg) eqn:Hon; simpl.
    + destruct (IH (visited ++ [seg])) as [[Hall Heq]|(pre & x & post & H)].
      * left. split; [by constructor|]. by rewrite Heq, <- app_assoc.
      * destruct H as (-> & Hpre & Hx & Heq). right.
        exists (seg :: pre), x, post. repeat split; auto.
        by rewrite Heq, <- app_assoc.
    + right. exists [], seg, rest. repeat split; auto.
Qed.

Lemma PrioritzeChangeLane_cases segs :
  (Forall (fun seg => IsOnSegment seg = true) segs /\
   PrioritzeChangeLane segs = segs) \/
  (exists pre x post,
     segs = pre ++ x :: post /\
     Forall (fun seg => IsOnSegment seg = true) pre /\
     IsOnSegment x = false /\
     PrioritzeChangeLane segs = x :: pre ++ post).
Proof.
  unfold PrioritzeChangeLane.
  destruct (PrioritzeChangeLane_loop_spec segs [])
    as [[Hall Heq]|(pre & x & post & -> & Hpre & Hx & Heq)];
    rewrite Heq; simpl.
  - left. auto.
  - right. exists pre, x, post. auto.
Qed.

Lemma PrioritzeChangeLane_perm segs :
  segs ≡ₚ PrioritzeChangeLane segs /\
  length (PrioritzeChangeLane segs) = length segs.
Proof.
  assert (segs ≡ₚ PrioritzeChangeLane segs) as Hperm.
  { destruct (PrioritzeChangeLane_cases segs)
      as [[_ ->]|(pre & x & post & -> & _ & _ & ->)]; [reflexivity|].
    symmetry. apply Permutation_middle. }
  split; [exact Hperm|]. symmetry. by apply Permutation_length.
Qed.

(** C4.  [PrioritzeChangeLane] returns a permutation of its list.  Either
    every segment is the current one and the list is returned as it is, or
    the list is [pre ++ x :: post] with [x] the first segment that is not
    current, and the result is [x :: pre ++ post]: one element moved to the
    front, the others in their order. *)
Theorem PrioritzeChangeLane_moves_one segs :
  segs ≡ₚ PrioritzeChangeLane segs /\
  ((Forall (fun seg => IsOnSegment seg = true) segs /\
    PrioritzeChangeLane segs = segs) \/
   (exists pre x post,
      segs = pre ++ x :: post /\
      Forall (fun seg => IsOnSegment seg = true) pre /\
      IsOnSegment x = false /\
      PrioritzeChangeLane segs = x :: pre ++ post)).
Proof.
  split; [apply PrioritzeChangeLane_perm | apply PrioritzeChangeLane_cases].
Qed.

Lemma forward_segment_skip pre x post :
  IsOnSegment x = false ->
  forward_segment (pre ++ x :: post) = forward_segment (pre ++ post).
Proof.
  intros Hx. induction pre as [|seg pre IH]; simpl.
  - by rewrite Hx.
  - by rewrite IH.
Qed.

(** Moving the first segment that is not current to the front changes
    neither the size of the list nor its first current segment. *)
Lemma PrioritzeChangeLane_forward_segment segs :
  length (PrioritzeChangeLane segs) = length segs /\
  forward_segment (PrioritzeChangeLane segs) = forward_segment segs.
Proof.
  destruct (PrioritzeChangeLane_cases segs)
    as [[_ ->]|(pre & x & post & -> & _ & Hx & ->)]; [done|].
  split.
  - simpl. rewrite !length_app. simpl. lia.
  - rewrite (forward_segment_skip _ _ _ Hx). simpl. by rewrite Hx.
Qed.

End Prioritizer.

(** ** Bounded loops *)

Section Loops.
Context {St Res : Type} (body : St -> St + Res).

Lemma iterate_nat_add n m s :
  iterate_nat body (n + m) s =
  match iterate_nat body n s with
  | inl s1 => iterate_nat body m s1
  | inr r => inr r
  end.
Proof.
  revert s. induction n as [|n IH]; intros s; simpl; [reflexivity|].
  destruct (body s); [apply IH | reflexivity].
Qed.

Lemma iterate_nat_more n m s r :
  iterate_nat body n s = inr r -> (n <= m)%nat ->
  iterate_nat body m s = inr r.
Proof.
  intros Hn Hle. replace m with (n + (m - n))%nat by lia.
  by rewrite iterate_nat_add, Hn.
Qed.

Lemma iterate_unary p s :
  iterate body p s = iterate_nat body (Pos.to_nat p) s.
Proof.
  revert s. induction p as [p IH|p IH|]; intros s.
  - rewrite Pos2Nat.inj_xI.
    replace (S (2 * Pos.to_nat p)) with (1 + (Pos.to_nat p + Pos.to_nat p))%nat
      by lia.
    rewrite iterate_nat_add. cbn [iterate iterate_nat].
    destruct (body s) as [s1|r]; [|reflexivity].
    rewrite iterate_nat_add, <- IH.
    destruct (iterate body p s1); [apply IH | reflexivity].
  - rewrite Pos2Nat.inj_xO.
    replace (2 * Pos.to_nat p)%nat with (Pos.to_nat p + Pos.to_nat p)%nat
      by lia.
    rewrite iterate_nat_add, <- IH. cbn [iterate].
    destruct (iterate body p s); [apply IH | reflexivity].
  - cbn [iterate]. change (Pos.to_nat 1) with 1%nat. cbn [iterate_nat].
    by destruct (body s).
Qed.

End Loops.

(** ** Smoothing validator *)

Section Validator.
Context {M : HDMap} {G : Geometry}.
Variables raw smoothed : ReferenceLine.

Let guard (k : nat) : bool :=
  Double.lt (Double.of_int (5 * Z.of_nat k)) (Length raw).

Let passed (k : nat) : Prop :=
  forall j : nat, (j < k)%nat ->
    guard j = true /\ too_far raw smoothed (5 * Z.of_nat j) = false.

(** What [n] rounds from counter [5 * k] lead to, when the rounds before
    passed. *)
Lemma smooth_valid_rounds_spec n k :
  passed k ->
  match iterate_nat (smooth_valid_body raw smoothed) n (5 * Z.of_nat k) with
  | inl s => s = 5 * Z.of_nat (k + n) /\ passed (k + n)%nat
  | inr (Normal true) => exists k', passed k' /\ guard k' = false
  | inr (Normal false) =>
      exists k', passed k' /\ guard k' = true /\
                 too_far raw smoothed (5 * Z.of_nat k') = true
  | inr Undefined =>
      exists k', passed (S k') /\ INT_MAX < 5 * Z.of_nat k' + 5
  end.
Proof.
  revert k. induction n as [|n IH]; intros k Hk.
  - cbn [iterate_nat]. by rewrite Nat.add_0_r.
  - cbn [iterate_nat]. unfold smooth_valid_body.
    change (Double.lt (Double.of_int (5 * Z.of_nat k)) (Length raw))
      with (guard k).
    change (Double.gt
              (DistanceTo
                 (GetReferencePoint raw (Double.of_int (5 * Z.of_nat k)))
                 (GetReferencePoint smoothed (Double.of_int (5 * Z.of_nat k))))
              kReferenceLineDiffCheckResolution)
      with (too_far raw smoothed (5 * Z.of_nat k)).
    destruct (guard k) eqn:Hg; [|by exists k].
    destruct (too_far raw smoothed (5 * Z.of_nat k)) eqn:Hfar; [by exists k|].
    assert (passed (S k)) as Hk'.
    { intros j Hj. destruct (decide (j = k)) as [->|]; [done|].
      apply Hk. lia. }
    destruct (5 * Z.of_nat k + 5 <=? INT_MAX) eqn:Hmax.
    + replace (5 * Z.of_nat k + 5) with (5 * Z.of_nat (S k)) by lia.
      specialize (IH (S k) Hk').
      replace (k + S n)%nat with (S k + n)%nat by lia. exact IH.
    + exists k. split; [done|]. apply Z.leb_gt in Hmax. lia.
Qed.

(** With the raw line in the counter's range the loop returns, and what it
    returns is decided by the first round that leaves it. *)
Lemma smooth_valid_returns :
  counter_in_range raw ->
  (IsReferenceLineSmoothValid raw smoothed = Normal true /\
   exists k, passed k /\ guard k = false) \/
  (IsReferenceLineSmoothValid raw smoothed = Normal false /\
   exists k, passed k /\ guard k = true /\
             too_far raw smoothed (5 * Z.of_nat k) = true).
Proof.
  intros Hrange.
  destruct (Z_of_nat_complete 429496729) as [K HK]; [lia|].
  assert (guard K = false) as Hlast.
  { unfold guard. replace (5 * Z.of_nat K) with 2147483645 by lia.
    exact Hrange. }
  assert (passed 0) as H0 by (intros j Hj; lia).
  pose proof (smooth_valid_rounds_spec (S K) 0 H0) as Hspec.
  change (5 * Z.of_nat 0) with 0 in Hspec.
  assert (forall r,
    iterate_nat (smooth_valid_body raw smoothed) (S K) 0 = inr r ->
    iterate (smooth_valid_body raw smoothed) smooth_valid_rounds 0 = inr r)
    as Hmore.
  { intros r Hr. rewrite iterate_unary.
    apply (iterate_nat_more _ (S K)); [exact Hr|].
    pose proof (positive_nat_Z smooth_valid_rounds) as Hp.
    unfold smooth_valid_rounds in Hp at 2. lia. }
  unfold IsReferenceLineSmoothValid.
  destruct (iterate_nat (smooth_valid_body raw smoothed) (S K) 0)
    as [s|[[|]|]] eqn:Hrun.
  - destruct Hspec as [_ Hp].
    destruct (Hp K) as [Hg _]; [lia|]. congruence.
  - left. rewrite (Hmore _ eq_refl). split; [reflexivity | exact Hspec].
  - right. rewrite (Hmore _ eq_refl). split; [reflexivity | exact Hspec].
  - destruct Hspec as (k & Hp & Hk).
    destruct (Hp K) as [Hg _]; [unfold INT_MAX in Hk; lia | congruence].
Qed.

Lemma smooth_valid_defined :
  counter_in_range raw ->
  exists b, IsReferenceLineSmoothValid raw smoothed = Normal b.
Proof.
  intros Hrange.
  destruct (smooth_valid_returns Hrange) as [[-> _]|[-> _]]; eauto.
Qed.

(** C3.  For a raw line in the counter's range the validator returns, and it
    returns true iff at no sample point (0, 5, 10, ... while strictly below
    the raw length) the two lines are more than 5.0 apart.  So a smoothed
    line that is too far at a sample point fails, and, the distance of a
    point to itself never being above 5.0, a smoothed line with the points
    of the raw line validates. *)
Theorem IsReferenceLineSmoothValid_samples :
  counter_in_range raw ->
  exists b,
    IsReferenceLineSmoothValid raw smoothed = Normal b /\
    (b = true <->
     forall s, sample_point raw s -> too_far raw smoothed s = false) /\
    ((exists s, sample_point raw s /\ too_far raw smoothed s = true) ->
     b = false) /\
    ((forall p, Double.gt (DistanceTo p p) 5%float = false) ->
     (forall s, GetReferencePoint smoothed s = GetReferencePoint raw s) ->
     b = true).
Proof.
  intros Hrange.
  assert (forall k, passed k -> guard k = true ->
            sample_point raw (5 * Z.of_nat k)) as Hsample.
  { intros k Hp Hg. exists k. split; [done|]. intros j Hj.
    destruct (decide (j = k)) as [->|]; [done|]. apply Hp. lia. }
  assert (forall k s, passed k -> guard k = false -> sample_point raw s ->
            too_far raw smoothed s = false) as Hbefore.
  { intros k s Hp Hg (k' & -> & Hk').
    destruct (decide (k' < k)%nat) as [Hlt|Hge]; [by apply Hp|].
    assert (guard k = true) by (apply Hk'; lia). congruence. }
  destruct (smooth_valid_returns Hrange)
    as [[Hret (k & Hp & Hg)]|[Hret (k & Hp & Hg & Hfar)]].
  - exists true. split; [done|]. split; [|split]; [| |done].
    + split; [|done]. intros _ s Hs. by apply (Hbefore k).
    + intros (s & Hs & Hfar). rewrite (Hbefore k s Hp Hg Hs) in Hfar. done.
  - exists false. split; [done|]. split; [|split]; [|done|].
    + split; [done|]. intros Hall.
      rewrite (Hall _ (Hsample k Hp Hg)) in Hfar. done.
    + intros Hself Hsame. unfold too_far in Hfar.
      rewrite Hsame, Hself in Hfar. done.
Qed.

End Validator.

(** ** Routing updates *)

Section Routing.
Context {M : HDMap} {G : Geometry}.
Implicit Types (st : Provider) (routing : RoutingResponse).

(** C6.  When the map rejects the routing response the call returns false
    and keeps the history table and the has-routing flag; when the map
    accepts it the call returns true, marks routing as received, and the
    history table is emptied if the map reports another routing than before
    and kept otherwise. *)
Theorem UpdateRoutingResponse_result routing st :
  let accepted := (PncMap_UpdateRoutingResponse (pnc_map_ st) routing).1 in
  let m := (PncMap_UpdateRoutingResponse (pnc_map_ st) routing).2 in
  let st' := (UpdateRoutingResponse routing st).2 in
  (UpdateRoutingResponse routing st).1 = accepted /\
  pnc_map_ st' = m /\
  (accepted = false ->
   segment_history_ st' = segment_history_ st /\
   has_routing_ st' = has_routing_ st) /\
  (accepted = true ->
   has_routing_ st' = true /\
   segment_history_ st' =
     if IsSameRouting m then segment_history_ st else ∅).
Proof.
  unfold UpdateRoutingResponse.
  destruct (PncMap_UpdateRoutingResponse (pnc_map_ st) routing) as [[|] m];
    simpl.
  - destruct (IsSameRouting m); simpl; repeat split; auto; discriminate.
  - repeat split; auto; discriminate.
Qed.

End Routing.

(** ** The pipeline *)

Section Pipeline.
Context {M : HDMap} {G : Geometry}.
Implicit Types (flags : Flags) (st : Provider) (allow : bool).
Implicit Types (cands segs : list RouteSegments) (rls : list ReferenceLine).

Lemma IsAllowChangeLane_frame flags point segs st :
  let st' := (IsAllowChangeLane flags point segs st).2 in
  pnc_map_ st' = pnc_map_ st /\ has_routing_ st' = has_routing_ st /\
  vehicle_state_ st' = vehicle_state_ st /\
  reference_lines_ st' = reference_lines_ st /\
  route_segments_ st' = route_segments_ st /\
  is_stop_ st' = is_stop_ st /\ is_initialized_ st' = is_initialized_ st.
Proof.
  unfold IsAllowChangeLane.
  destruct (FLAGS_reckless_change_lane flags); [done|].
  destruct (length segs <=? 1)%nat; [done|].
  destruct (forward_segment segs) as [fwd|]; [|done].
  destruct (GetProjection fwd point) as [[s l]|]; [|done].
  by destruct (segment_history_ st !! Id fwd).
Qed.

(** The eligibility does not depend on whether the list was prioritized. *)
Lemma IsAllowChangeLane_prioritized flags point segs st :
  IsAllowChangeLane flags point (PrioritzeChangeLane segs) st =
  IsAllowChangeLane flags point segs st.
Proof.
  unfold IsAllowChangeLane.
  destruct (PrioritzeChangeLane_forward_segment segs) as [-> ->].
  reflexivity.
Qed.

Lemma SmoothReferenceLine_defined flags lanes :
  counter_in_range (raw_line lanes) ->
  exists r, SmoothReferenceLine flags lanes = Normal r.
Proof.
  intros Hrange. unfold SmoothReferenceLine.
  destruct (FLAGS_enable_smooth_reference_line flags); simpl; [|eauto].
  fold (raw_line lanes).
  destruct (Smooth (raw_line lanes)) as [rl|]; [|eauto].
  destruct (smooth_valid_defined (raw_line lanes) rl Hrange) as [b ->].
  destruct b; simpl; eauto.
Qed.

(** The loop over the candidates appends, in their order, the usable
    candidates and their lines. *)
Lemma smooth_each_spec flags allow cands rls segs :
  Forall (fun lanes => counter_in_range (raw_line lanes)) cands ->
  exists lines,
    smooth_each flags allow cands rls segs =
      Normal (rls ++ lines, segs ++ List.filter (usable flags allow) cands) /\
    Forall2 (fun lanes rl => SmoothReferenceLine flags lanes = Normal (Some rl))
      (List.filter (usable flags allow) cands) lines.
Proof.
  intros Hall. revert rls segs.
  induction Hall as [|lanes cands Hrange _ IH]; intros rls segs.
  - exists []. simpl. rewrite !app_nil_r. split; [done | constructor].
  - destruct (SmoothReferenceLine_defined flags lanes Hrange) as [r Hs].
    assert (usable flags allow lanes =
            (allow || IsOnSegment lanes) &&
            match r with Some _ => true | None => false end) as Hu.
    { unfold usable. rewrite Hs. by destruct r. }
    cbn [smooth_each List.filter]. rewrite Hu, Hs.
    destruct allow, (IsOnSegment lanes), r as [rl|];
      cbn [negb andb orb mbind outcome_bind];
      first
        [ destruct (IH (rls ++ [rl]) (segs ++ [lanes])) as (lines & -> & Hl);
          exists (rl :: lines); rewrite <- !app_assoc;
          split; [reflexivity | by constructor]
        | destruct (IH rls segs) as (lines & -> & Hl);
          exists lines; split; [reflexivity | exact Hl] ].
Qed.

(** C2.  A run that gets its candidates [cands] from the map calls
    [IsAllowChangeLane] once: its result and the provider it leaves are those
    of one call at the position snapshot on the list [cands] as the map
    returned it, also when the run then works on the prioritized list. *)
Theorem CreateReferenceLineFromRouting_eligibility_once
  flags rls segs st cands m :
  candidates flags st = (Some cands, m) ->
  let once := IsAllowChangeLane flags (position st) cands (set_pnc_map m st) in
  let tried :=
    if FLAGS_prioritize_change_lane flags
    then PrioritzeChangeLane cands else cands in
  CreateReferenceLineFromRouting flags rls segs st =
    out ← smooth_each flags once.1 tried rls segs;
    Normal (match out.1 with [] => false | _ :: _ => true end, out, once.2).
Proof.
  unfold candidates, position. intros Hc. cbn zeta.
  unfold CreateReferenceLineFromRouting. rewrite Hc.
  destruct (FLAGS_prioritize_change_lane flags).
  - rewrite IsAllowChangeLane_prioritized.
    destruct (IsAllowChangeLane _ _ cands _) as [allow st1]. simpl.
    destruct (smooth_each flags allow _ rls segs) as [[[|rl l] sg]|]; done.
  - destruct (IsAllowChangeLane _ _ cands _) as [allow st1]. simpl.
    destruct (smooth_each flags allow _ rls segs) as [[[|rl l] sg]|]; done.
Qed.

(** The shape of a run, shared by the properties below. *)
Lemma CreateReferenceLineFromRouting_cases flags rls segs st :
  let found := (candidates flags st).1 in
  let m := (candidates flags st).2 in
  match found with
  | None =>
      CreateReferenceLineFromRouting flags rls segs st =
        Normal (false, (rls, segs), set_pnc_map m st)
  | Some cands =>
      let tried :=
        if FLAGS_prioritize_change_lane flags
        then PrioritzeChangeLane cands else cands in
      let once :=
        IsAllowChangeLane flags (position st) tried (set_pnc_map m st) in
      CreateReferenceLineFromRouting flags rls segs st =
        out ← smooth_each flags once.1 tried rls segs;
        Normal (match out.1 with [] => false | _ :: _ => true end,
                out, once.2)
  end.
Proof.
  unfold candidates, position, CreateReferenceLineFromRouting. cbn zeta.
  destruct (GetRouteSegments _ _ _ _) as [[cands|] m]; [|done]. simpl.
  destruct (IsAllowChangeLane _ _ _ _) as [allow st1]. simpl.
  destruct (smooth_each flags allow _ rls segs) as [[[|rl l] sg]|]; done.
Qed.

(** C5.  A run that gets its candidates from the map returns; it appends to
    the lists it was given the usable candidates in the order in which it
    tried them, each with the line [SmoothReferenceLine] gave for it; and it
    fails iff its list of reference lines is empty at the end.  Started on
    empty lists it fails iff no candidate is usable, so a candidate that
    fails to smooth or to validate is left out and does not fail the run. *)
Theorem CreateReferenceLineFromRouting_fails_iff_empty
  flags rls segs st cands m :
  candidates flags st = (Some cands, m) ->
  Forall (fun lanes => counter_in_range (raw_line lanes)) cands ->
  let tried :=
    if FLAGS_prioritize_change_lane flags
    then PrioritzeChangeLane cands else cands in
  let allow :=
    (IsAllowChangeLane flags (position st) tried (set_pnc_map m st)).1 in
  exists ok lines st',
    CreateReferenceLineFromRouting flags rls segs st =
      Normal (ok,
              (rls ++ lines, segs ++ List.filter (usable flags allow) tried),
              st') /\
    Forall2
      (fun lanes rl => SmoothReferenceLine flags lanes = Normal (Some rl))
      (List.filter (usable flags allow) tried) lines /\
    (ok = false <-> rls ++ lines = []) /\
    (rls = [] ->
     (ok = false <->
      Forall (fun lanes => usable flags allow lanes = false) tried)) /\
    (forall lanes, In lanes tried -> usable flags allow lanes = true ->
                   ok = true).
Proof.
  intros Hc Hrange tried allow.
  pose proof (CreateReferenceLineFromRouting_cases flags rls segs st) as Hrun.
  rewrite Hc in Hrun. cbn [fst snd] in Hrun. cbn zeta in Hrun.
  fold tried in Hrun. fold allow in Hrun.
  assert (Forall (fun lanes => counter_in_range (raw_line lanes)) tried)
    as Htried.
  { unfold tried. destruct (FLAGS_prioritize_change_lane flags); [|done].
    apply Forall_forall. intros lanes Hin.
    eapply Forall_forall in Hrange; [exact Hrange|].
    by rewrite (proj1 (PrioritzeChangeLane_perm cands)). }
  destruct (smooth_each_spec flags allow tried rls segs Htried)
    as (lines & Heach & Hlines).
  rewrite Heach in Hrun. cbn [mbind outcome_bind fst] in Hrun.
  assert (forall lanes, In lanes tried -> usable flags allow lanes = true ->
            lines <> []) as Hsome.
  { intros lanes Hin Hu Hnil. subst lines.
    apply Forall2_nil_inv_r in Hlines.
    assert (In lanes (List.filter (usable flags allow) tried)) as Hf
      by (apply filter_In; auto).
    rewrite Hlines in Hf. destruct Hf. }
  assert (lines = [] <->
          Forall (fun lanes => usable flags allow lanes = false) tried)
    as Hnone.
  { split.
    - intros ->. apply List.Forall_forall. intros lanes Hin.
      destruct (usable flags allow lanes) eqn:Hu; [|done].
      by destruct (Hsome lanes Hin Hu).
    - intros Hall. apply Forall2_length in Hlines.
      destruct (List.filter (usable flags allow) tried) as [|lanes l] eqn:Hf.
      + by destruct lines.
      + assert (In lanes (List.filter (usable flags allow) tried)) as Hin
          by (rewrite Hf; left; done).
        apply filter_In in Hin as [Hin Hu].
        eapply List.Forall_forall in Hall; [|exact Hin]. congruence. }
  eexists _, lines, _. split; [exact Hrun|]. split; [exact Hlines|].
  split; [|split].
  - destruct (rls ++ lines); split; (done || congruence).
  - intros ->. cbn [app]. rewrite <- Hnone.
    destruct lines; split; (done || congruence).
  - intros lanes Hin Hu. pose proof (Hsome lanes Hin Hu).
    destruct rls, lines; done.
Qed.

End Pipeline.

(** ** Publication *)

Section Publication.
Context {M : HDMap} {G : Geometry}.
Implicit Types (flags : Flags) (st : Provider) (trace : list label).

(** A run of the pipeline does not touch the snapshot, and when it returns
    true its list of reference lines is not empty. *)
Lemma CreateReferenceLineFromRouting_frame flags rls segs st ok lines sg st' :
  CreateReferenceLineFromRouting flags rls segs st
    = Normal (ok, (lines, sg), st') ->
  reference_lines_ st' = reference_lines_ st /\
  route_segments_ st' = route_segments_ st /\
  has_routing_ st' = has_routing_ st /\
  is_stop_ st' = is_stop_ st /\
  (ok = true -> lines <> []).
Proof.
  pose proof (CreateReferenceLineFromRouting_cases flags rls segs st) as Hrun.
  cbn zeta in Hrun.
  destruct (candidates flags st) as [[cands|] m]; cbn [fst snd] in Hrun.
  - rewrite Hrun.
    pose proof (IsAllowChangeLane_frame flags (position st)
      (if FLAGS_prioritize_change_lane flags
       then PrioritzeChangeLane cands else cands) (set_pnc_map m st)) as Hf.
    cbn zeta in Hf. destruct Hf as (_ & Hr & _ & Hl & Hs & Hstop & _).
    destruct (smooth_each _ _ _ rls segs) as [[l s]|];
      cbn [mbind outcome_bind fst]; [|discriminate].
    intros Heq. destruct l as [|rl l]; injection Heq as <- <- <- <-;
      rewrite Hl, Hs, Hr, Hstop; repeat split; (done || congruence).
  - rewrite Hrun. intros Heq. injection Heq as <- <- <- <-.
    destruct rls; repeat split; (done || congruence).
Qed.

(** A round of the worker either leaves the snapshot as it was, or installs
    the non-empty result of a run of the pipeline that returned true. *)
Lemma GenerateThread_round_snapshot flags st published st' :
  GenerateThread_round flags st = Normal (published, st') ->
  if published then
    reference_lines_ st' <> [] /\
    has_routing_ st = true /\
    exists st1,
      CreateReferenceLineFromRouting flags [] [] st =
        Normal (true, (reference_lines_ st', route_segments_ st'), st1)
  else
    reference_lines_ st' = reference_lines_ st /\
    route_segments_ st' = route_segments_ st.
Proof.
  unfold GenerateThread_round.
  destruct (has_routing_ st); simpl.
  - destruct (CreateReferenceLineFromRouting flags [] [] st)
      as [[[ok [lines sg]] st1]|] eqn:Hrun;
      cbn [mbind outcome_bind]; [|discriminate].
    destruct (CreateReferenceLineFromRouting_frame _ _ _ _ _ _ _ _ Hrun)
      as (Hl & Hs & _ & _ & Hok).
    destruct ok; simpl; intros Heq; injection Heq as <- <-.
    + simpl. split; [by apply Hok|]. split; [done|]. by exists st1.
    + done.
  - intros Heq. by injection Heq as <- <-.
Qed.

(** Only a publishing round changes the list of the snapshot. *)
Lemma step_snapshot flags st l st' :
  step flags st l st' ->
  if is_publication l then reference_lines_ st' <> []
  else reference_lines_ st' = reference_lines_ st.
Proof.
  destruct 1 as [st routing ok st' Hr|st v|st published st' Hr
                |st rls segs r st' Hg|st]; simpl.
  - unfold UpdateRoutingResponse in Hr.
    destruct (PncMap_UpdateRoutingResponse _ _) as [[|] m]; simpl in Hr;
      injection Hr as <- <-; [|done].
    by destruct (IsSameRouting m).
  - done.
  - apply GenerateThread_round_snapshot in Hr.
    destruct published; [apply Hr | apply Hr].
  - unfold GetReferenceLines in Hg.
    destruct (FLAGS_enable_reference_line_provider_thread flags).
    + assert (st' = st) as ->; [|done].
      destruct (reference_lines_ st); injection Hg; done.
    + destruct (CreateReferenceLineFromRouting flags rls segs st)
        as [[[ok [lines sg]] st1]|] eqn:Hrun;
        cbn [mbind outcome_bind] in Hg; [|discriminate].
      injection Hg as <- <-.
      by destruct (CreateReferenceLineFromRouting_frame _ _ _ _ _ _ _ _ Hrun).
  - done.
Qed.

(** C9.  In every state the provider reaches from [Init], the snapshot is
    empty when no round has published and holds at least one reference line
    when one has; and from such a state a step changes the snapshot only as
    a round that publishes the non-empty result of a successful run of the
    pipeline. *)
Theorem published_snapshot_invariant flags m v trace st :
  run flags (Init m v) trace st ->
  (if existsb is_publication trace
   then reference_lines_ st <> [] else reference_lines_ st = []) /\
  (forall l st',
     step flags st l st' ->
     reference_lines_ st' <> reference_lines_ st ->
     l = LRound true /\ reference_lines_ st' <> [] /\
     exists st1,
       CreateReferenceLineFromRouting flags [] [] st =
         Normal (true, (reference_lines_ st', route_segments_ st'), st1)).
Proof.
  intros Hrun. split.
  - remember (Init m v) as st0 eqn:Hst0.
    induction Hrun as [st|st trace st1 l st2 Hrun IH Hstep].
    + by subst st.
    + specialize (IH Hst0). rewrite existsb_app. simpl.
      rewrite orb_false_r.
      pose proof (step_snapshot _ _ _ _ Hstep) as Hs.
      destruct (is_publication l).
      * by rewrite orb_true_r.
      * rewrite orb_false_r, Hs. exact IH.
  - intros l st' Hstep Hchanged.
    pose proof (step_snapshot _ _ _ _ Hstep) as Hs.
    destruct l as [routing ok|v'|[|]|rls segs|]; simpl in Hs; try done.
    split; [done|]. split; [done|].
    inversion Hstep as [| |st1 p st2 Hr| |]; subst.
    apply GenerateThread_round_snapshot in Hr. apply Hr.
Qed.

End Publication.

(** ** The properties on the road of the examples *)

(** On doubles [x - x] is zero, or NaN when [x] is infinite or NaN. *)
Lemma sub_self (x : double) :
  (x - x)%float = 0%float \/ (x - x)%float = nan.
Proof.
  rewrite <- (SF2Prim_Prim2SF (x - x)), FloatAxioms.sub_spec.
  unfold SF64sub, SFsub.
  destruct (Prim2SF x) as [[|]|[|]| |s m e]; auto.
  left. by rewrite Z.sub_diag.
Qed.

(** The Euclidean distance from a point to itself is never above 5. *)
Lemma euclid_self (p : Vec2d) :
  Double.gt (Road.euclid p p) 5%float = false.
Proof.
  unfold Road.euclid. cbn zeta.
  destruct (sub_self (x_ p)) as [-> | ->], (sub_self (y_ p)) as [-> | ->];
    reflexivity.
Qed.

Lemma IsReferenceLineSmoothValid_samples_witness :
  IsReferenceLineSmoothValid (H0:=Road.geometry)
    (Road.mkLine 0 12) (Road.mkLine 0 12) = Normal true /\
  IsReferenceLineSmoothValid (H0:=Road.geometry)
    (Road.mkLine 0 12) (Road.mkLine 6 12) = Normal false.
Proof.
  split.
  - destruct (IsReferenceLineSmoothValid_samples (G:=Road.geometry)
                (Road.mkLine 0 12) (Road.mkLine 0 12))
      as (b & -> & _ & _ & Hsame); [reflexivity|].
    rewrite Hsame; [reflexivity | exact euclid_self | reflexivity].
  - destruct (IsReferenceLineSmoothValid_samples (G:=Road.geometry)
                (Road.mkLine 0 12) (Road.mkLine 6 12))
      as (b & -> & _ & Hfar & _); [reflexivity|].
    rewrite Hfar; [reflexivity|].
    exists 0. split; [|reflexivity].
    exists 0%nat. split; [reflexivity|].
    intros j Hj. replace j with 0%nat by lia. reflexivity.
Defined.

Definition routed_provider : @Provider Road.hdmap Road.geometry :=
  Road.provider [Road.current; Road.left; Road.far; Road.stub]
    seen_current true 6 0.1.

Lemma CreateReferenceLineFromRouting_eligibility_once_witness :
  CreateReferenceLineFromRouting (H0:=Road.geometry) Road.flags [] []
    routed_provider =
  Normal
    (true,
     ([Road.mkLine 7 12; Road.mkLine 0 12], [Road.left; Road.current]),
     (IsAllowChangeLane (H0:=Road.geometry) Road.flags (Road.at_ 6 0.1)
        [Road.current; Road.left; Road.far; Road.stub] routed_provider).2).
Proof.
  rewrite (CreateReferenceLineFromRouting_eligibility_once (G:=Road.geometry)
             Road.flags [] [] routed_provider
             [Road.current; Road.left; Road.far; Road.stub]
             (pnc_map_ routed_provider));
    [|reflexivity].
  vm_compute. reflexivity.
Defined.

Lemma CreateReferenceLineFromRouting_fails_iff_empty_witness :
  exists lines st',
    CreateReferenceLineFromRouting (H0:=Road.geometry) Road.flags [] []
      routed_provider =
      Normal (true, (lines, [Road.left; Road.current]), st').
Proof.
  destruct (CreateReferenceLineFromRouting_fails_iff_empty
              (G:=Road.geometry) Road.flags [] [] routed_provider
              [Road.current; Road.left; Road.far; Road.stub]
              (pnc_map_ routed_provider))
    as (ok & lines & st' & Hrun & _ & _ & _ & Hok).
  - reflexivity.
  - repeat constructor.
  - exists lines, st'. rewrite Hrun.
    rewrite (Hok Road.current); [|simpl; auto|vm_compute; reflexivity].
    vm_compute. reflexivity.
Defined.

Definition stubs_provider : @Provider Road.hdmap Road.geometry :=
  Road.provider [Road.stub; Road.stub] ∅ true 0 0.

(** A run can return true with no usable candidate: the map gives two stubs
    that the smoother rejects, and the caller passes a list that already
    holds a line, as the synchronous [GetReferenceLines] lets it. *)
Lemma CreateReferenceLineFromRouting_prefilled_counterexample :
  ~ (candidates (H0:=Road.geometry) Road.flags stubs_provider
       = (Some [Road.stub; Road.stub], pnc_map_ stubs_provider) ->
     forall ok out st',
       CreateReferenceLineFromRouting (H0:=Road.geometry) Road.flags
         [Road.mkLine 9 9] [Road.far] stubs_provider
       = Normal (ok, out, st') ->
       (ok = false <->
        Forall
          (fun lanes =>
             usable (H0:=Road.geometry) Road.flags
               (IsAllowChangeLane (H0:=Road.geometry) Road.flags
                  (Road.at_ 0 0) [Road.stub; Road.stub] stubs_provider).1
               lanes = false)
          [Road.stub; Road.stub])).
Proof.
  intros Hclaim.
  assert (CreateReferenceLineFromRouting (H0:=Road.geometry) Road.flags
            [Road.mkLine 9 9] [Road.far] stubs_provider
          = Normal (true, ([Road.mkLine 9 9], [Road.far]),
                    (IsAllowChangeLane (H0:=Road.geometry) Road.flags
                       (Road.at_ 0 0) [Road.stub; Road.stub]
                       stubs_provider).2)) as Hrun
    by (vm_compute; reflexivity).
  destruct (Hclaim eq_refl _ _ _ Hrun) as [_ Hfails].
  discriminate Hfails. repeat constructor.
Qed.

Lemma UpdateRoutingResponse_result_witness :
  (UpdateRoutingResponse (H0:=Road.geometry)
     (Road.mkRouting None 2) routed_provider).1 = false /\
  segment_history_
    (UpdateRoutingResponse (H0:=Road.geometry)
       (Road.mkRouting None 2) routed_provider).2 = seen_current /\
  (UpdateRoutingResponse (H0:=Road.geometry)
     (Road.mkRouting (Some [Road.current]) 2) routed_provider).1 = true /\
  segment_history_
    (UpdateRoutingResponse (H0:=Road.geometry)
       (Road.mkRouting (Some [Road.current]) 2) routed_provider).2 = ∅.
Proof.
  destruct (@UpdateRoutingResponse_result Road.hdmap Road.geometry
              (Road.mkRouting None 2) routed_provider)
    as (Hret & _ & Hrejected & _).
  destruct (@UpdateRoutingResponse_result Road.hdmap Road.geometry
              (Road.mkRouting (Some [Road.current]) 2) routed_provider)
    as (Hret' & _ & _ & Haccepted).
  split; [exact Hret|]. split; [apply Hrejected; reflexivity|].
  split; [exact Hret'|]. apply Haccepted. reflexivity.
Defined.

Definition first_routing : Road.routing :=
  Road.mkRouting (Some [Road.current; Road.left]) 1.

Definition fresh_provider : @Provider Road.hdmap Road.geometry :=
  Init (H0:=Road.geometry) (Road.mkPncMap [] 0 false) (Road.vehicle 6 0.1).

Definition published_provider : @Provider Road.hdmap Road.geometry :=
  @set_snapshot Road.hdmap Road.geometry [Road.mkLine 0 12] [Road.current]
    (set_segment_history
       {[ "current" := first_observation (Road.at_ 6 0.1) 0.1 ]}
       (UpdateRoutingResponse (H0:=Road.geometry)
          first_routing fresh_provider).2).

Definition first_round : list (@label Road.hdmap Road.geometry) :=
  [@LRouting Road.hdmap Road.geometry first_routing true; LRound true].

Lemma published_snapshot_invariant_witness :
  run Road.flags fresh_provider first_round published_provider /\
  reference_lines_ published_provider <> [].
Proof.
  assert (run Road.flags fresh_provider first_round published_provider)
    as Hrun.
  { apply (run_snoc Road.flags fresh_provider
             [@LRouting Road.hdmap Road.geometry first_routing true]
             (UpdateRoutingResponse (H0:=Road.geometry)
                first_routing fresh_provider).2).
    - apply (run_snoc Road.flags fresh_provider [] fresh_provider);
        [apply run_nil|].
      apply step_routing. reflexivity.
    - apply step_round. vm_compute. reflexivity. }
  split; [exact Hrun|].
  exact (proj1 (@published_snapshot_invariant
                  Road.hdmap Road.geometry Road.flags
                  (Road.mkPncMap [] 0 false) (Road.vehicle 6 0.1)
                  first_round published_provider Hrun)).
Defined.

(** * Further properties of the provider *)

(** ** The order on doubles *)

Lemma SFcompare_antisym (x y : spec_float) :
  SFcompare y x = option_map CompOpp (SFcompare x y).
Proof.
  destruct x as [[|]|[|]| |[|] mx ex], y as [[|]|[|]| |[|] my ey];
    try reflexivity; cbn [SFcompare option_map];
    rewrite (Z.compare_antisym ey ex);
    destruct (ey ?= ex); cbn [CompOpp]; try reflexivity;
    fold (Pos.compare mx my); fold (Pos.compare my mx);
    rewrite (Pos.compare_antisym my mx); by destruct (my ?= mx)%positive.
Qed.

Lemma lt_irrefl (x : double) : Double.lt x x = false.
Proof.
  unfold Double.lt. rewrite FloatAxioms.ltb_spec. unfold SFltb.
  pose proof (SFcompare_antisym (Prim2SF x) (Prim2SF x)) as Hxx.
  destruct (SFcompare (Prim2SF x) (Prim2SF x)) as [[| |]|]; done.
Qed.

Lemma lt_asym (x y : double) : Double.lt x y = true -> Double.lt y x = false.
Proof.
  unfold Double.lt. rewrite !FloatAxioms.ltb_spec. unfold SFltb.
  rewrite (SFcompare_antisym (Prim2SF x) (Prim2SF y)).
  by destruct (SFcompare (Prim2SF x) (Prim2SF y)) as [[| |]|].
Qed.

(** [std::min(a, b)] is above neither [a] nor [b]. *)
Lemma std_min_below (a b : double) :
  Double.lt a (Double.std_min a b) = false /\
  Double.lt b (Double.std_min a b) = false.
Proof.
  unfold Double.std_min. destruct (Double.lt b a) eqn:Hba.
  - split; [by apply lt_asym | apply lt_irrefl].
  - split; [apply lt_irrefl | exact Hba].
Qed.

(** ** More on the eligibility tracker *)

Section EligibilityFrame.
Context {M : HDMap} {G : Geometry}.
Implicit Types (flags : Flags) (point : Vec2d) (st : Provider).
Implicit Types (segs : list RouteSegments) (e : SegmentHistory).

(** X1.  With reckless mode off and at least two segments none of which is
    the current one, the call returns true and leaves the provider as it
    was. *)
Theorem IsAllowChangeLane_no_current_segment flags point segs st :
  FLAGS_reckless_change_lane flags = false ->
  (2 <= length segs)%nat ->
  Forall (fun seg => IsOnSegment seg = false) segs ->
  IsAllowChangeLane flags point segs st = (true, st).
Proof.
  intros Hreck Hlen Hoff. apply forward_segment_none in Hoff.
  unfold IsAllowChangeLane.
  by rewrite Hreck, (size_above_one _ Hlen), Hoff.
Qed.

(** X2.  A call never removes a history entry, and the only entry it can
    change or create is the one of the first current segment of the list. *)
Theorem IsAllowChangeLane_history_frame flags point segs st id :
  let h := segment_history_ st in
  let h' := segment_history_ (IsAllowChangeLane flags point segs st).2 in
  (is_Some (h !! id) -> is_Some (h' !! id)) /\
  (h' !! id <> h !! id ->
   exists fwd, forward_segment segs = Some fwd /\ Id fwd = id).
Proof.
  cbn zeta. unfold IsAllowChangeLane.
  destruct (FLAGS_reckless_change_lane flags); [done|].
  destruct (length segs <=? 1)%nat; [done|].
  destruct (forward_segment segs) as [fwd|]; [|done].
  destruct (GetProjection fwd point) as [[s l]|]; [|done].
  destruct (decide (Id fwd = id)) as [Heq|Hne].
  - split; [|by exists fwd].
    intros _. destruct (segment_history_ st !! Id fwd); simpl;
      rewrite <- Heq, lookup_insert_eq; eauto.
  - destruct (segment_history_ st !! Id fwd); simpl;
      rewrite lookup_insert_ne by done; done.
Qed.

(** X3.  On a later observation the recorded minimum does not go up: the new
    [min_l] is above neither the old one nor [|l|]. *)
Theorem IsAllowChangeLane_min_l_not_above flags point segs st fwd s l e :
  FLAGS_reckless_change_lane flags = false ->
  (2 <= length segs)%nat ->
  forward_segment segs = Some fwd ->
  GetProjection fwd point = Some (s, l) ->
  segment_history_ st !! Id fwd = Some e ->
  exists e',
    segment_history_ (IsAllowChangeLane flags point segs st).2 !! Id fwd
      = Some e' /\
    Double.lt (min_l e) (min_l e') = false /\
    Double.lt (Double.fabs l) (min_l e') = false.
Proof.
  intros Hreck Hlen Hfwd Hproj Hsome.
  exists (next_observation e point l).
  unfold IsAllowChangeLane.
  rewrite Hreck, (size_above_one _ Hlen), Hfwd, Hproj, Hsome. simpl.
  rewrite lookup_insert_eq. split; [done|]. apply std_min_below.
Qed.

(** X4.  With an empty history table, as after a change of route, a call
    that finds a current segment returns false: lane change is allowed only
    from the second observation of a segment on. *)
Theorem IsAllowChangeLane_after_route_change flags point segs st routing fwd :
  (PncMap_UpdateRoutingResponse (pnc_map_ st) routing).1 = true ->
  IsSameRouting (PncMap_UpdateRoutingResponse (pnc_map_ st) routing).2
    = false ->
  FLAGS_reckless_change_lane flags = false ->
  forward_segment segs = Some fwd ->
  (IsAllowChangeLane flags point segs
     (UpdateRoutingResponse routing st).2).1 = false.
Proof.
  intros Hok Hsame Hreck Hfwd.
  unfold UpdateRoutingResponse.
  destruct (PncMap_UpdateRoutingResponse (pnc_map_ st) routing) as [ok m].
  simpl in Hok, Hsame. subst ok. simpl. rewrite Hsame. simpl.
  unfold IsAllowChangeLane. rewrite Hreck, Hfwd. simpl.
  destruct (length segs <=? 1)%nat; [done|].
  destruct (GetProjection fwd point) as [[s l]|]; [|done].
  by rewrite lookup_empty.
Qed.

(** X5.  The tracker does not see the prioritizer: the prioritized list has
    the size and the first current segment of the list it comes from, and
    the call on it is the call on that list. *)
Theorem IsAllowChangeLane_after_prioritize flags point segs st :
  length (PrioritzeChangeLane segs) = length segs /\
  forward_segment (PrioritzeChangeLane segs) = forward_segment segs /\
  IsAllowChangeLane flags point (PrioritzeChangeLane segs) st =
  IsAllowChangeLane flags point segs st.
Proof.
  destruct (PrioritzeChangeLane_forward_segment segs) as [Hlen Hfwd].
  split; [exact Hlen|]. split; [exact Hfwd|].
  unfold IsAllowChangeLane. by rewrite Hlen, Hfwd.
Qed.

End EligibilityFrame.

(** ** More on the prioritizer *)

Section PrioritizerOrder.
Context {M : HDMap}.
Implicit Types (segs pre post : list RouteSegments).

Lemma filter_current_all pre :
  Forall (fun seg => IsOnSegment seg = true) pre ->
  List.filter IsOnSegment pre = pre /\
  List.filter (fun seg => negb (IsOnSegment seg)) pre = [].
Proof.
  induction 1 as [|seg pre Hon _ [IH1 IH2]]; [done|].
  simpl. by rewrite Hon, IH1, IH2.
Qed.

(** X6.  Prioritizing twice is prioritizing once. *)
Theorem PrioritzeChangeLane_idempotent segs :
  PrioritzeChangeLane (PrioritzeChangeLane segs) = PrioritzeChangeLane segs.
Proof.
  destruct (PrioritzeChangeLane_cases segs)
    as [[Hall ->]|(pre & x & post & _ & _ & Hx & ->)].
  - destruct (PrioritzeChangeLane_cases segs)
      as [[_ Heq]|(pre & x & post & -> & _ & Hx & _)]; [done|].
    apply Forall_app in Hall as [_ Hall]. inversion Hall; congruence.
  - unfold PrioritzeChangeLane. simpl. by rewrite Hx.
Qed.

(** X7.  The prioritizer keeps the order of the current segments among
    themselves and of the other segments among themselves, and its result
    starts with a segment that is not current as soon as the list has
    one. *)
Theorem PrioritzeChangeLane_stable segs :
  List.filter IsOnSegment (PrioritzeChangeLane segs)
    = List.filter IsOnSegment segs /\
  List.filter (fun seg => negb (IsOnSegment seg)) (PrioritzeChangeLane segs)
    = List.filter (fun seg => negb (IsOnSegment seg)) segs /\
  (Exists (fun seg => IsOnSegment seg = false) segs ->
   exists x rest,
     PrioritzeChangeLane segs = x :: rest /\ IsOnSegment x = false).
Proof.
  destruct (PrioritzeChangeLane_cases segs)
    as [[Hall ->]|(pre & x & post & -> & Hpre & Hx & ->)].
  - split; [done|]. split; [done|]. intros Hex.
    apply Exists_exists in Hex as (seg & Hin & Hoff).
    eapply Forall_forall in Hall; [|exact Hin]. congruence.
  - destruct (filter_current_all pre Hpre) as [Hon Hoff].
    cbn [List.filter]. rewrite !List.filter_app. cbn [List.filter].
    rewrite Hx, Hoff. cbn [negb app].
    split; [done|]. split; [done|]. intros _. by exists x, (pre ++ post).
Qed.

End PrioritizerOrder.

(** ** More on the validator *)

Section ValidatorOutcomes.
Context {M : HDMap} {G : Geometry}.
Implicit Types (raw smoothed : ReferenceLine).

Lemma iterate_stops {St Res : Type} (body : St -> St + Res) p s r :
  body s = inr r -> iterate body p s = inr r.
Proof.
  intros Hr. induction p as [p IH|p IH|]; cbn [iterate].
  - by rewrite Hr.
  - by rewrite IH.
  - exact Hr.
Qed.

Lemma smooth_valid_counter_bound raw smoothed n s0 s :
  iterate_nat (smooth_valid_body raw smoothed) (S n) s0 = inl s ->
  s <= INT_MAX.
Proof.
  revert s0. induction n as [|n IH]; intros s0; cbn [iterate_nat].
  - unfold smooth_valid_body.
    repeat match goal with |- context [if ?c then _ else _] =>
      destruct c eqn:? end; try discriminate.
    intros [= <-]. by apply Z.leb_le.
  - destruct (smooth_valid_body raw smoothed s0) as [s1|r]; [|discriminate].
    apply IH.
Qed.

(** X8.  A raw line whose length is not above zero (or is NaN) has no sample
    point: every smoothed line validates against it. *)
Theorem IsReferenceLineSmoothValid_no_sample raw smoothed :
  Double.lt 0%float (Length raw) = false ->
  IsReferenceLineSmoothValid raw smoothed = Normal true.
Proof.
  intros Hlen. unfold IsReferenceLineSmoothValid.
  rewrite (iterate_stops _ _ _ (Normal true)); [done|].
  unfold smooth_valid_body.
  change (Double.of_int 0) with 0%float. by rewrite Hlen.
Qed.

(** X9.  The three outcomes of the validator.  It returns true at the first
    multiple of 5 that is not below the raw length, false at the first
    sample where the lines are more than 5.0 apart, and its behaviour is
    undefined only when every multiple of 5 up to 2147483645 is below the
    raw length and passes, so that [s += 5.0] leaves the range of [int]. *)
Theorem IsReferenceLineSmoothValid_outcomes raw smoothed :
  let below (k : nat) :=
    Double.lt (Double.of_int (5 * Z.of_nat k)) (Length raw) in
  let passed (k : nat) :=
    forall j : nat, (j < k)%nat ->
      below j = true /\ too_far raw smoothed (5 * Z.of_nat j) = false in
  (IsReferenceLineSmoothValid raw smoothed = Normal true /\
   exists k, passed k /\ below k = false) \/
  (IsReferenceLineSmoothValid raw smoothed = Normal false /\
   exists k, passed k /\ below k = true /\
             too_far raw smoothed (5 * Z.of_nat k) = true) \/
  (IsReferenceLineSmoothValid raw smoothed = Undefined /\
   forall j : nat, 5 * Z.of_nat j <= 2147483645 ->
     below j = true /\ too_far raw smoothed (5 * Z.of_nat j) = false).
Proof.
  intros below passed.
  destruct (Z_of_nat_complete 429496729) as [K HK]; [lia|].
  assert (passed 0%nat) as H0 by (intros j Hj; lia).
  pose proof (smooth_valid_rounds_spec raw smoothed (S (S K)) 0 H0) as Hspec.
  change (5 * Z.of_nat 0) with 0 in Hspec.
  assert (forall r,
    iterate_nat (smooth_valid_body raw smoothed) (S (S K)) 0 = inr r ->
    IsReferenceLineSmoothValid raw smoothed = r) as Hmore.
  { intros r Hr. unfold IsReferenceLineSmoothValid.
    rewrite iterate_unary, (iterate_nat_more _ (S (S K)) _ _ r); [done|done|].
    pose proof (positive_nat_Z smooth_valid_rounds) as Hp.
    unfold smooth_valid_rounds in Hp at 2. lia. }
  destruct (iterate_nat (smooth_valid_body raw smoothed) (S (S K)) 0)
    as [s|[[|]|]] eqn:Hrun.
  - apply smooth_valid_counter_bound in Hrun. destruct Hspec as [-> _].
    unfold INT_MAX in Hrun. lia.
  - left. split; [by apply Hmore | exact Hspec].
  - right. left. split; [by apply Hmore | exact Hspec].
  - right. right. split; [by apply Hmore|].
    destruct Hspec as (k & Hp & Hk). intros j Hj. apply Hp.
    unfold INT_MAX in Hk. lia.
Qed.

(** What [n] rounds do depends on the smoothed line only through its points
    at the multiples of 5. *)
Lemma smooth_valid_rounds_ext raw smoothed smoothed' n k :
  (forall j : nat,
     GetReferencePoint smoothed (Double.of_int (5 * Z.of_nat j)) =
     GetReferencePoint smoothed' (Double.of_int (5 * Z.of_nat j))) ->
  iterate_nat (smooth_valid_body raw smoothed) n (5 * Z.of_nat k) =
  iterate_nat (smooth_valid_body raw smoothed') n (5 * Z.of_nat k).
Proof.
  intros Hsame. revert k. induction n as [|n IH]; intros k; [done|].
  cbn [iterate_nat]. unfold smooth_valid_body. rewrite Hsame.
  destruct (Double.lt _ (Length raw)); [|done].
  destruct (Double.gt _ _); [done|].
  destruct (5 * Z.of_nat k + 5 <=? INT_MAX); [|done].
  replace (5 * Z.of_nat k + 5) with (5 * Z.of_nat (S k)) by lia. apply IH.
Qed.

(** X10.  The validator reads the smoothed line only at the arclengths 0, 5,
    10, ...: two smoothed lines with the same points there get the same
    verdict, whatever their lengths and their points in between. *)
Theorem IsReferenceLineSmoothValid_reads_samples raw smoothed smoothed' :
  (forall j : nat,
     GetReferencePoint smoothed (Double.of_int (5 * Z.of_nat j)) =
     GetReferencePoint smoothed' (Double.of_int (5 * Z.of_nat j))) ->
  IsReferenceLineSmoothValid raw smoothed =
  IsReferenceLineSmoothValid raw smoothed'.
Proof.
  intros Hsame. unfold IsReferenceLineSmoothValid.
  rewrite !iterate_unary.
  by rewrite (smooth_valid_rounds_ext raw smoothed smoothed' _ 0 Hsame).
Qed.

End ValidatorOutcomes.

(** ** More on the pipeline *)

Section PipelineOutput.
Context {M : HDMap} {G : Geometry}.
Implicit Types (flags : Flags) (st : Provider) (allow : bool).
Implicit Types (cands segs : list RouteSegments) (rls : list ReferenceLine).

(** Whenever the loop over the candidates returns, it has appended the
    usable candidates and their lines. *)
Lemma smooth_each_appends flags allow cands rls segs l s :
  smooth_each flags allow cands rls segs = Normal (l, s) ->
  exists lines,
    l = rls ++ lines /\
    s = segs ++ List.filter (usable flags allow) cands /\
    Forall2 (fun lanes rl => SmoothReferenceLine flags lanes = Normal (Some rl))
      (List.filter (usable flags allow) cands) lines.
Proof.
  revert rls segs. induction cands as [|lanes cands IH]; intros rls segs.
  - simpl. intros [= <- <-]. exists []. rewrite !app_nil_r.
    split; [done|]. split; [done | constructor].
  - cbn [smooth_each List.filter].
    change (usable flags allow lanes) with
      ((allow || IsOnSegment lanes) &&
       match SmoothReferenceLine flags lanes with
       | Normal (Some _) => true
       | _ => false
       end).
    destruct (SmoothReferenceLine flags lanes) as [[rl|]|] eqn:Hs;
      destruct allow, (IsOnSegment lanes);
      cbn [negb andb orb mbind outcome_bind]; try discriminate;
      intros Hrun; apply IH in Hrun as (lines & -> & -> & Hl);
      first
        [ exists lines; split; [reflexivity|];
          split; [reflexivity | exact Hl]
        | exists (rl :: lines); rewrite <- !app_assoc;
          split; [reflexivity|]; split; [reflexivity | by constructor] ].
Qed.

Lemma smooth_each_disabled flags allow cands rls segs :
  FLAGS_enable_smooth_reference_line flags = false ->
  let kept := List.filter (fun lanes => allow || IsOnSegment lanes) cands in
  smooth_each flags allow cands rls segs =
    Normal (rls ++ map raw_line kept, segs ++ kept).
Proof.
  intros Hoff. cbn zeta. revert rls segs.
  induction cands as [|lanes cands IH]; intros rls segs.
  - simpl. by rewrite !app_nil_r.
  - cbn [smooth_each List.filter]. unfold SmoothReferenceLine.
    rewrite Hoff. cbn [negb mbind outcome_bind].
    destruct allow, (IsOnSegment lanes); cbn [negb andb orb];
      rewrite IH; cbn [map]; by rewrite <- ?app_assoc.
Qed.

(** X11.  With smoothing disabled a run that gets its candidates never
    leaves defined behaviour and never drops a candidate for its geometry:
    it appends every candidate that passes the lane-change gate, in the
    order tried, each with its raw line. *)
Theorem CreateReferenceLineFromRouting_smoothing_disabled
  flags rls segs st cands m :
  FLAGS_enable_smooth_reference_line flags = false ->
  candidates flags st = (Some cands, m) ->
  let tried :=
    if FLAGS_prioritize_change_lane flags
    then PrioritzeChangeLane cands else cands in
  let once := IsAllowChangeLane flags (position st) tried (set_pnc_map m st) in
  let kept := List.filter (fun lanes => once.1 || IsOnSegment lanes) tried in
  CreateReferenceLineFromRouting flags rls segs st =
    Normal (match rls ++ map raw_line kept with
            | [] => false
            | _ :: _ => true
            end,
            (rls ++ map raw_line kept, segs ++ kept), once.2).
Proof.
  intros Hoff Hc. cbn zeta.
  pose proof (CreateReferenceLineFromRouting_cases flags rls segs st) as Hrun.
  rewrite Hc in Hrun. cbn [fst snd] in Hrun. cbn zeta in Hrun.
  rewrite Hrun, (smooth_each_disabled _ _ _ _ _ Hoff). reflexivity.
Qed.

(** The lists a run returns, whenever it returns. *)
Lemma CreateReferenceLineFromRouting_output flags rls segs st ok lines sg st' :
  CreateReferenceLineFromRouting flags rls segs st
    = Normal (ok, (lines, sg), st') ->
  exists new_lines new_segs,
    lines = rls ++ new_lines /\ sg = segs ++ new_segs /\
    Forall2 (fun lanes rl => SmoothReferenceLine flags lanes = Normal (Some rl))
      new_segs new_lines /\
    (ok = true <-> (candidates flags st).1 <> None /\ lines <> []).
Proof.
  pose proof (CreateReferenceLineFromRouting_cases flags rls segs st) as Hrun.
  cbn zeta in Hrun.
  destruct (candidates flags st) as [[cands|] m]; cbn [fst snd] in Hrun;
    rewrite Hrun.
  - destruct (smooth_each _ _ _ rls segs) as [[l s]|] eqn:Heach;
      cbn [mbind outcome_bind fst]; [|discriminate].
    apply smooth_each_appends in Heach as (new_lines & -> & -> & Hl).
    intros Heq. eexists new_lines, _.
    destruct (rls ++ new_lines) eqn:Hout; injection Heq as <- <- <- <-;
      (split; [reflexivity|]); (split; [reflexivity|]);
      (split; [exact Hl|]); split; try done; intros [_ ?]; done.
  - intros [= <- <- <- <-]. exists [], []. rewrite !app_nil_r.
    split; [done|]. split; [done|]. split; [constructor|].
    split; [done|]. intros [? _]. done.
Qed.

(** X12.  A run appends to the lists the caller passes: what was there stays
    in front, in its order, and the two lists grow by as many elements, each
    new segment with its line.  It returns true iff it got candidates and
    the list of lines is not empty at the end, so on a list that was not
    empty at the start it returns true also when no candidate is usable. *)
Theorem CreateReferenceLineFromRouting_appends
  flags rls segs st ok lines sg st' :
  CreateReferenceLineFromRouting flags rls segs st
    = Normal (ok, (lines, sg), st') ->
  (exists new_lines new_segs,
     lines = rls ++ new_lines /\ sg = segs ++ new_segs /\
     length new_lines = length new_segs /\
     Forall2
       (fun lanes rl => SmoothReferenceLine flags lanes = Normal (Some rl))
       new_segs new_lines) /\
  (ok = true <-> (candidates flags st).1 <> None /\ lines <> []) /\
  (rls <> [] -> (candidates flags st).1 <> None -> ok = true).
Proof.
  intros Hrun.
  destruct (CreateReferenceLineFromRouting_output _ _ _ _ _ _ _ _ Hrun)
    as (new_lines & new_segs & -> & -> & Hl & Hok).
  split; [|split; [exact Hok|]].
  - exists new_lines, new_segs. repeat split; try done.
    symmetry. by eapply Forall2_length.
  - intros Hne Hc. apply Hok. split; [done|]. by destruct rls.
Qed.

(** X13.  While lane change is not allowed a run returns current segments
    only. *)
Theorem CreateReferenceLineFromRouting_current_only
  flags st cands m ok lines sg st' :
  candidates flags st = (Some cands, m) ->
  (IsAllowChangeLane flags (position st) cands (set_pnc_map m st)).1
    = false ->
  CreateReferenceLineFromRouting flags [] [] st
    = Normal (ok, (lines, sg), st') ->
  Forall (fun lanes => IsOnSegment lanes = true) sg.
Proof.
  intros Hc Hallow.
  pose proof (CreateReferenceLineFromRouting_cases flags [] [] st) as Hrun.
  rewrite Hc in Hrun. cbn [fst snd] in Hrun. cbn zeta in Hrun.
  rewrite Hrun. clear Hrun.
  assert ((IsAllowChangeLane flags (position st)
             (if FLAGS_prioritize_change_lane flags
              then PrioritzeChangeLane cands else cands)
             (set_pnc_map m st)).1 = false) as ->.
  { destruct (FLAGS_prioritize_change_lane flags); [|done].
    by rewrite IsAllowChangeLane_prioritized. }
  destruct (smooth_each _ _ _ [] []) as [[l s]|] eqn:Heach;
    cbn [mbind outcome_bind fst]; [|discriminate].
  apply smooth_each_appends in Heach as (new_lines & -> & -> & _).
  intros Heq. assert (sg = List.filter (usable flags false)
    (if FLAGS_prioritize_change_lane flags
     then PrioritzeChangeLane cands else cands)) as ->.
  { simpl in Heq. by destruct new_lines; injection Heq as <- <- <- <-. }
  apply List.Forall_forall. intros lanes Hin.
  apply filter_In in Hin as [_ Hu]. unfold usable in Hu. simpl in Hu.
  by apply andb_prop in Hu as [Hon _].
Qed.

End PipelineOutput.

(** ** More on publication *)

Section PublicationRuns.
Context {M : HDMap} {G : Geometry}.
Implicit Types (flags : Flags) (st : Provider) (trace : list label).

(** What one step does to the snapshot and to the has-routing flag. *)
Lemma step_effect flags st l st' :
  step flags st l st' ->
  (if is_publication l then
     has_routing_ st = true /\
     exists st1,
       CreateReferenceLineFromRouting flags [] [] st =
         Normal (true, (reference_lines_ st', route_segments_ st'), st1)
   else
     reference_lines_ st' = reference_lines_ st /\
     route_segments_ st' = route_segments_ st) /\
  has_routing_ st' = is_accepted_routing l || has_routing_ st.
Proof.
  destruct 1 as [st routing ok st' Hr|st v|st published st' Hr
                |st rls segs r st' Hg|st]; simpl.
  - unfold UpdateRoutingResponse in Hr.
    destruct (PncMap_UpdateRoutingResponse _ _) as [[|] m]; simpl in Hr;
      injection Hr as <- <-; [|done].
    by destruct (IsSameRouting m).
  - done.
  - pose proof (GenerateThread_round_snapshot _ _ _ _ Hr) as Hsnap.
    assert (has_routing_ st' = has_routing_ st) as Hrouted.
    { unfold GenerateThread_round in Hr.
      destruct (has_routing_ st) eqn:Hh; simpl in Hr.
      - destruct (CreateReferenceLineFromRouting flags [] [] st)
          as [[[ok [lines sg]] st1]|] eqn:Hrun;
          cbn [mbind outcome_bind] in Hr; [|discriminate].
        destruct (CreateReferenceLineFromRouting_frame _ _ _ _ _ _ _ _ Hrun)
          as (_ & _ & Hsame & _).
        destruct ok; injection Hr as <- <-; simpl; congruence.
      - injection Hr as <- <-. done. }
    split; [|exact Hrouted].
    destruct published; [|exact Hsnap].
    destruct Hsnap as (_ & Hh & Hrun). done.
  - unfold GetReferenceLines in Hg.
    destruct (FLAGS_enable_reference_line_provider_thread flags).
    + assert (st' = st) as ->; [|done].
      destruct (reference_lines_ st); injection Hg; done.
    + destruct (CreateReferenceLineFromRouting flags rls segs st)
        as [[[ok [lines sg]] st1]|] eqn:Hrun;
        cbn [mbind outcome_bind] in Hg; [|discriminate].
      injection Hg as <- <-.
      destruct (CreateReferenceLineFromRouting_frame _ _ _ _ _ _ _ _ Hrun)
        as (Hl & Hs & Hh & _).
      rewrite Hl, Hs, Hh. done.
  - done.
Qed.

(** The invariants of the provider along a run from [Init]. *)
Lemma run_invariants flags m v trace st :
  run flags (Init m v) trace st ->
  (if existsb is_publication trace
   then reference_lines_ st <> [] else reference_lines_ st = []) /\
  has_routing_ st = existsb is_accepted_routing trace /\
  (existsb is_publication trace = true ->
   existsb is_accepted_routing trace = true) /\
  Forall2 (fun lanes rl => SmoothReferenceLine flags lanes = Normal (Some rl))
    (route_segments_ st) (reference_lines_ st).
Proof.
  remember (Init m v) as st0 eqn:Hst0.
  induction 1 as [st|st trace st1 l st2 Hrun IH Hstep].
  - subst st. simpl. repeat split; (done || constructor).
  - destruct (IH Hst0) as (Hsnap & Hrouted & Hpub & Hpairs).
    rewrite !existsb_app. cbn [existsb]. rewrite !orb_false_r.
    destruct (step_effect _ _ _ _ Hstep) as (Hl & Hr).
    rewrite Hr, Hrouted.
    destruct (is_publication l) eqn:Hp.
    + rewrite orb_true_r. destruct Hl as (Hh & st' & Hout).
      destruct (CreateReferenceLineFromRouting_output _ _ _ _ _ _ _ _ Hout)
        as (new_lines & new_segs & Hlines & Hsegs & Hf & Hok).
      simpl in Hlines, Hsegs.
      split; [by apply Hok|]. split; [apply orb_comm|]. split.
      * intros _. by rewrite <- Hrouted, Hh.
      * by rewrite Hlines, Hsegs.
    + rewrite orb_false_r. destruct Hl as [-> ->].
      split; [exact Hsnap|]. split; [apply orb_comm|].
      split; [|exact Hpairs].
      intros Htrue. by rewrite (Hpub Htrue).
Qed.

(** X14.  In every state reached from [Init] the snapshot pairs each segment
    with the reference line that [SmoothReferenceLine] gives for it; the two
    lists of the snapshot have the same length. *)
Theorem snapshot_pairs_segments_with_lines flags m v trace st :
  run flags (Init m v) trace st ->
  Forall2 (fun lanes rl => SmoothReferenceLine flags lanes = Normal (Some rl))
    (route_segments_ st) (reference_lines_ st) /\
  length (route_segments_ st) = length (reference_lines_ st).
Proof.
  intros Hrun. destruct (run_invariants _ _ _ _ _ Hrun) as (_ & _ & _ & Hf).
  split; [exact Hf | by eapply Forall2_length].
Qed.

(** X15.  The worker publishes only after a routing response was accepted:
    the has-routing flag is set exactly when the run holds an accepted
    routing update, it is never reset, and a run with a publication holds an
    accepted routing update. *)
Theorem publication_needs_routing flags m v trace st :
  run flags (Init m v) trace st ->
  has_routing_ st = existsb is_accepted_routing trace /\
  (existsb is_publication trace = true ->
   existsb is_accepted_routing trace = true).
Proof.
  intros Hrun. destruct (run_invariants _ _ _ _ _ Hrun) as (_ & Hr & Hp & _).
  by split.
Qed.

(** X16.  In threaded mode a consumer waits exactly as long as no round has
    published; from the first publication on it gets the snapshot, which is
    not empty, with the result true; the call never changes the provider. *)
Theorem GetReferenceLines_threaded flags m v trace st rls segs :
  FLAGS_enable_reference_line_provider_thread flags = true ->
  run flags (Init m v) trace st ->
  if existsb is_publication trace then
    reference_lines_ st <> [] /\
    GetReferenceLines flags rls segs st =
      Normal (Returned true (reference_lines_ st) (route_segments_ st), st)
  else
    GetReferenceLines flags rls segs st = Normal (Waiting, st).
Proof.
  intros Hthread Hrun.
  destruct (run_invariants _ _ _ _ _ Hrun) as (Hsnap & _).
  unfold GetReferenceLines. rewrite Hthread.
  destruct (existsb is_publication trace).
  - split; [exact Hsnap|]. by destruct (reference_lines_ st).
  - by rewrite Hsnap.
Qed.

End PublicationRuns.

(** ** The further properties on the road of the examples *)

Definition unsmoothed : Flags :=
  {| FLAGS_reckless_change_lane := false;
     FLAGS_min_length_for_lane_change := 10%float;
     FLAGS_prioritize_change_lane := false;
     FLAGS_enable_smooth_reference_line := false;
     FLAGS_enable_reference_line_provider_thread := false;
     FLAGS_look_forward_time_sec := 8%float;
     FLAGS_look_forward_min_distance := 100%float;
     FLAGS_look_forward_distance := 250%float;
     FLAGS_look_backward_distance := 30%float |}.

Definition two_lanes_provider : @Provider Road.hdmap Road.geometry :=
  Road.provider [Road.current; Road.left] ∅ true 0 0.

Lemma first_round_runs :
  run Road.flags fresh_provider first_round published_provider.
Proof.
  apply (run_snoc Road.flags fresh_provider
           [@LRouting Road.hdmap Road.geometry first_routing true]
           (UpdateRoutingResponse (H0:=Road.geometry)
              first_routing fresh_provider).2).
  - apply (run_snoc Road.flags fresh_provider [] fresh_provider);
      [apply run_nil|].
    apply step_routing. reflexivity.
  - apply step_round. vm_compute. reflexivity.
Qed.

Lemma IsAllowChangeLane_no_current_segment_witness :
  IsAllowChangeLane (H0:=Road.geometry) Road.flags (Road.at_ 0 0)
    [Road.left; Road.far] two_lanes_provider = (true, two_lanes_provider).
Proof.
  apply (IsAllowChangeLane_no_current_segment (G:=Road.geometry)).
  - reflexivity.
  - simpl. lia.
  - repeat constructor.
Defined.

Lemma IsAllowChangeLane_min_l_not_above_witness :
  exists e',
    segment_history_
      (IsAllowChangeLane (H0:=Road.geometry) Road.flags (Road.at_ 6 2)
         [Road.current; Road.left] routed_provider).2 !! "current"
      = Some e' /\
    Double.lt 0.1%float (min_l e') = false /\
    Double.lt 2%float (min_l e') = false.
Proof.
  apply (IsAllowChangeLane_min_l_not_above (G:=Road.geometry)
           Road.flags (Road.at_ 6 2) [Road.current; Road.left]
           routed_provider Road.current 6%float 2%float
           {| min_l := 0.1%float; accumulate_s := 3%float;
              last_point := Road.at_ 3 0.1 |}).
  - reflexivity.
  - simpl. lia.
  - reflexivity.
  - reflexivity.
  - vm_compute. reflexivity.
Defined.

Lemma IsAllowChangeLane_after_route_change_witness :
  (IsAllowChangeLane (H0:=Road.geometry) Road.flags (Road.at_ 6 0.1)
     [Road.current; Road.left]
     (UpdateRoutingResponse (H0:=Road.geometry)
        (Road.mkRouting (Some [Road.current; Road.left]) 2)
        routed_provider).2).1 = false.
Proof.
  apply (@IsAllowChangeLane_after_route_change Road.hdmap Road.geometry
           Road.flags (Road.at_ 6 0.1) [Road.current; Road.left]
           routed_provider
           (Road.mkRouting (Some [Road.current; Road.left]) 2)
           Road.current); reflexivity.
Defined.

Lemma IsReferenceLineSmoothValid_no_sample_witness :
  IsReferenceLineSmoothValid (H0:=Road.geometry)
    (Road.mkLine 0 0) (Road.mkLine 100 5) = Normal true /\
  IsReferenceLineSmoothValid (H0:=Road.geometry)
    (Road.mkLine 0 nan) (Road.mkLine 100 5) = Normal true.
Proof.
  split;
    apply (IsReferenceLineSmoothValid_no_sample (G:=Road.geometry));
    reflexivity.
Defined.

Lemma IsReferenceLineSmoothValid_reads_samples_witness :
  IsReferenceLineSmoothValid (H0:=Road.geometry)
    (Road.mkLine 0 12) (Road.mkLine 1 12) =
  IsReferenceLineSmoothValid (H0:=Road.geometry)
    (Road.mkLine 0 12) (Road.mkLine 1 99).
Proof.
  apply (IsReferenceLineSmoothValid_reads_samples (G:=Road.geometry)).
  intros j. reflexivity.
Defined.

Lemma CreateReferenceLineFromRouting_smoothing_disabled_witness :
  exists st',
    CreateReferenceLineFromRouting (H0:=Road.geometry) unsmoothed [] []
      routed_provider =
    Normal (true,
            ([Road.mkLine 0 12; Road.mkLine 3.5 12; Road.mkLine 6 12;
              Road.mkLine 0 0.5],
             [Road.current; Road.left; Road.far; Road.stub]), st').
Proof.
  eexists.
  rewrite (CreateReferenceLineFromRouting_smoothing_disabled
             (G:=Road.geometry) unsmoothed [] [] routed_provider
             [Road.current; Road.left; Road.far; Road.stub]
             (pnc_map_ routed_provider));
    [|reflexivity|reflexivity].
  vm_compute. reflexivity.
Defined.

Lemma CreateReferenceLineFromRouting_appends_witness :
  CreateReferenceLineFromRouting (H0:=Road.geometry) Road.flags
    [Road.mkLine 9 9] [Road.far] stubs_provider
  = Normal (true, ([Road.mkLine 9 9], [Road.far]),
            (IsAllowChangeLane (H0:=Road.geometry) Road.flags (Road.at_ 0 0)
               [Road.stub; Road.stub] stubs_provider).2) /\
  (true = true <->
   (candidates (H0:=Road.geometry) Road.flags stubs_provider).1 <> None /\
   [Road.mkLine 9 9] <> []).
Proof.
  assert (CreateReferenceLineFromRouting (H0:=Road.geometry) Road.flags
            [Road.mkLine 9 9] [Road.far] stubs_provider
          = Normal (true, ([Road.mkLine 9 9], [Road.far]),
                    (IsAllowChangeLane (H0:=Road.geometry) Road.flags
                       (Road.at_ 0 0) [Road.stub; Road.stub]
                       stubs_provider).2)) as Hrun
    by (vm_compute; reflexivity).
  split; [exact Hrun|].
  exact (proj1 (proj2 (CreateReferenceLineFromRouting_appends
                         (G:=Road.geometry) _ _ _ _ _ _ _ _ Hrun))).
Defined.

Lemma CreateReferenceLineFromRouting_current_only_witness :
  Forall (fun lanes => Road.lane_on lanes = true) [Road.current].
Proof.
  apply (CreateReferenceLineFromRouting_current_only (G:=Road.geometry)
           Road.flags two_lanes_provider [Road.current; Road.left]
           (pnc_map_ two_lanes_provider) true [Road.mkLine 0 12]
           [Road.current]
           (IsAllowChangeLane (H0:=Road.geometry) Road.flags (Road.at_ 0 0)
              [Road.current; Road.left] two_lanes_provider).2).
  - reflexivity.
  - vm_compute. reflexivity.
  - vm_compute. reflexivity.
Defined.

Lemma snapshot_pairs_segments_with_lines_witness :
  Forall2
    (fun lanes rl =>
       SmoothReferenceLine (H0:=Road.geometry) Road.flags lanes
       = Normal (Some rl))
    (route_segments_ published_provider)
    (reference_lines_ published_provider) /\
  length (route_segments_ published_provider)
  = length (reference_lines_ published_provider).
Proof.
  exact (@snapshot_pairs_segments_with_lines Road.hdmap Road.geometry
           Road.flags (Road.mkPncMap [] 0 false) (Road.vehicle 6 0.1)
           first_round published_provider first_round_runs).
Defined.

Lemma publication_needs_routing_witness :
  has_routing_ published_provider = existsb is_accepted_routing first_round /\
  (existsb is_publication first_round = true ->
   existsb is_accepted_routing first_round = true).
Proof.
  exact (@publication_needs_routing Road.hdmap Road.geometry
           Road.flags (Road.mkPncMap [] 0 false) (Road.vehicle 6 0.1)
           first_round published_provider first_round_runs).
Defined.

Lemma GetReferenceLines_threaded_witness :
  reference_lines_ published_provider <> [] /\
  GetReferenceLines Road.flags [] [] published_provider =
    Normal (Returned true (reference_lines_ published_provider)
              (route_segments_ published_provider), published_provider).
Proof.
  exact (@GetReferenceLines_threaded Road.hdmap Road.geometry
           Road.flags (Road.mkPncMap [] 0 false) (Road.vehicle 6 0.1)
           first_round published_provider [] [] eq_refl first_round_runs).
Defined.

